(** * MBTiles Expander: a shallow embedding of [convert.py]

    The script expands MBTiles archives (SQLite files) into a directory tree
    of image tiles.  The embedding below follows the script top to bottom:
    the values SQLite hands to Python, the archive queries, the archive
    validation loop (lines 149-174), the export-set check (205-207), the
    optional cleaning of the output directory (212-225) and the extraction
    loop (256-318), with Python exceptions as an explicit [Raise] result and
    the module-level variables and the process's working directory as an
    explicit state.

    Two things reach the script from outside and are taken accordingly:
    - SQLite: an archive is the content of its two relations ([database]);
    - Pillow: [Image.open], [Image.convert("RGBA")] and [Image.save] are the
      operations of an [ImageLib] instance, [Image.paste] with a mask is
      written out band by band as Pillow computes it.
    Console output (banner, listing, progress bar) is not modelled, except
    where it can raise. *)

From Stdlib Require Import ZArith Lia List Strings.String Strings.Ascii Strings.Byte.
From stdpp Require Import base option list strings gmap pretty.

Local Open Scope Z_scope.

(* ===================================================================== *)
(** ** Images and Pillow's [paste]                                        *)
(* ===================================================================== *)

Module Pillow.

(** An RGBA pixel: four 8-bit bands, as [convert("RGBA")] produces them. *)
Record pixel := mkPixel { red : byte; green : byte; blue : byte; alpha : byte }.

(** An image is its rows of pixels, top row first. *)
Definition image := list (list pixel).

Definition band (b : byte) : Z := Z.of_N (Byte.to_N b).

(** Storing into a [UINT8]: the value modulo 256. *)
Definition uint8 (z : Z) : byte :=
  match Byte.of_N (Z.to_N (Z.land z 255)) with
  | Some b => b
  | None => x00
  end.

(** [DIV255(a, tmp)] of Pillow's ImagingUtils.h:
    [tmp = a + 128, (((tmp >> 8) + tmp) >> 8)]. *)
Definition DIV255 (a : Z) : Z :=
  let tmp := a + 128 in Z.shiftr (Z.shiftr tmp 8 + tmp) 8.

(** [BLEND8(mask, in1, in2, tmp)]: [DIV255(in1 * (255 - mask) + in2 * mask)]. *)
Definition BLEND8 (mask in1 in2 : Z) : Z :=
  DIV255 (in1 * (255 - mask) + in2 * mask).

Definition blend_band (mask out inp : byte) : byte :=
  uint8 (BLEND8 (band mask) (band out) (band inp)).

(** One pixel of [paste_mask_RGBA]: every band of the destination, the alpha
    band included, is blended with the source under the mask's alpha. *)
Definition blend_pixel (mask out inp : pixel) : pixel :=
  {| red := blend_band (alpha mask) (red out) (red inp);
     green := blend_band (alpha mask) (green out) (green inp);
     blue := blend_band (alpha mask) (blue out) (blue inp);
     alpha := blend_band (alpha mask) (alpha out) (alpha inp) |}.

(** [im1.paste(im2, (0, 0), im2)]: the source is anchored at the origin and
    clipped to the destination; pixels of the destination outside the source
    are left as they are.  The mask is the source itself. *)
Fixpoint paste_row (out inp : list pixel) : list pixel :=
  match out, inp with
  | o :: out', i :: inp' => blend_pixel i o i :: paste_row out' inp'
  | _, _ => out
  end.

Fixpoint paste (im1 im2 : image) : image :=
  match im1, im2 with
  | r1 :: im1', r2 :: im2' => paste_row r1 r2 :: paste im1' im2'
  | _, _ => im1
  end.

(** A tile all of whose pixels have alpha 0. *)
Definition fully_transparent (im : image) : Prop :=
  Forall (Forall (fun p => alpha p = x00)) im.

(** What [Image.save] did: it wrote the encoding, or it raised, leaving the
    file untouched ([None]) or holding what had been written so far. *)
Inductive save_result :=
| Saved (b : list byte)
| SaveError (residue : option (list byte)).

(** The codec side of Pillow.  [image_open b] is
    [Image.open(<file holding b>).convert("RGBA")] ([None]: it raised);
    [image_save name im] is [im.save(name)], whose format is chosen from
    the extension of [name]. *)
Class ImageLib := {
  image_open : list byte -> option image;
  image_save : string -> image -> save_result
}.

End Pillow.

Import Pillow.

(* ===================================================================== *)
(** ** Archives: what SQLite hands to the script                          *)
(* ===================================================================== *)

(** A value stored in a SQLite column, as [sqlite3] converts it to Python:
    [None], an [int], a [str] or [bytes] (a REAL column value, a [float],
    is left out). *)
Inductive sqlval :=
| SNull
| SInt (z : Z)
| SText (s : string)
| SBlob (b : list byte).

(** Python truthiness of such a value ([if img_format]). *)
Definition truthy (v : sqlval) : bool :=
  match v with
  | SNull => false
  | SInt z => negb (z =? 0)
  | SText s => negb (bool_decide (s = EmptyString))
  | SBlob b => negb (bool_decide (b = []))
  end.

(** [v == 'literal']: only a [str] equals a string literal. *)
Definition eq_str (v : sqlval) (lit : string) : bool :=
  match v with
  | SText s => bool_decide (s = lit)
  | _ => false
  end.

(** A row of the [tiles] relation, in column order:
    [row[0]] zoom_level, [row[1]] tile_column, [row[2]] tile_row,
    [row[3]] tile_data.  Zoom levels are natural numbers, on which Python's
    [2**row[0]] is the integer power. *)
Record tile := mkTile {
  zoom_level : N;
  tile_column : Z;
  tile_row : Z;
  tile_data : list byte
}.

(** An archive: the rows of its [metadata] relation (name, value) and of its
    [tiles] relation, in the archive's native row order.  [None] stands for
    a relation on which a query raises [sqlite3.OperationalError] (it does
    not exist, or cannot be read).  Every archive is a file that SQLite
    accepts as a database: a file that is not one makes the first query
    raise [sqlite3.DatabaseError], which is no [OperationalError]; such
    files are outside this model. *)
Record database := mkDatabase {
  metadata : option (list (string * sqlval));
  tiles : option (list tile)
}.

(** [sqlite3.connect] on a path that holds no file gives a database without
    relations. *)
Definition empty_database : database :=
  {| metadata := None; tiles := None |}.

(** Python exceptions that can leave the modelled code. *)
Inductive exn :=
| OperationalError
| TypeError
| NameError
| ValueError
| ZeroDivisionError
| FileNotFoundError
| NotADirectoryError
| IsADirectoryError
| ImageOpenError
| ImageSaveError
| SystemExit (code : Z).

Inductive result (A : Type) :=
| Ok (a : A)
| Raise (e : exn).
Arguments Ok {A} a.
Arguments Raise {A} e.

(** [cursor.execute("SELECT value FROM metadata WHERE name='format'")]
    followed by [cursor.fetchone()]: the first matching row, or [None]. *)
Definition fetch_format (db : database) : result (option sqlval) :=
  match metadata db with
  | None => Raise OperationalError
  | Some rows =>
      Ok (snd <$> head (filter (fun r => r.1 = "format"%string) rows))
  end.

(** [cursor.execute("SELECT COUNT(1) FROM TILES")], [fetchone()[0]]. *)
Definition count_tiles (db : database) : result Z :=
  match tiles db with
  | None => Raise OperationalError
  | Some ts => Ok (Z.of_nat (length ts))
  end.

(** The values of a column without repetition, each where it first occurs:
    what a [SELECT DISTINCT] yields when it scans the rows in their order. *)
Fixpoint distinct (l : list N) : list N :=
  match l with
  | [] => []
  | x :: l' => x :: filter (fun y => y <> x) (distinct l')
  end.

(** [SELECT DISTINCT zoom_level FROM TILES WHERE 1=1], read to the end. *)
Definition distinct_zoom_levels (db : database) : result (list N) :=
  match tiles db with
  | None => Raise OperationalError
  | Some ts => Ok (distinct (zoom_level <$> ts))
  end.

(** The zoom-filtered SELECT of lines 279-286 on the rows of [tiles].
    [x is not -1] on the [int] that argparse produced is [x != -1].  When no
    branch runs, the cursor is still the exhausted COUNT query. *)
Definition select_rows (min_zoom max_zoom : Z) (ts : list tile) : list tile :=
  if bool_decide (min_zoom = -1) && bool_decide (max_zoom = -1) then
    ts
  else if bool_decide (min_zoom = -1) && negb (bool_decide (max_zoom = -1)) then
    filter (fun t => Z.of_N (zoom_level t) <= max_zoom) ts
  else if negb (bool_decide (min_zoom = -1)) && bool_decide (max_zoom = -1) then
    filter (fun t => Z.of_N (zoom_level t) >= min_zoom) ts
  else if negb (bool_decide (min_zoom = -1)) && negb (bool_decide (max_zoom = -1)) then
    filter (fun t => Z.of_N (zoom_level t) <= max_zoom
                     /\ Z.of_N (zoom_level t) >= min_zoom) ts
  else [].

Definition select_tiles (min_zoom max_zoom : Z) (db : database)
  : result (list tile) :=
  match tiles db with
  | None => Raise OperationalError
  | Some ts => Ok (select_rows min_zoom max_zoom ts)
  end.

(* ===================================================================== *)
(** ** Command line                                                       *)
(* ===================================================================== *)

(** A directory name given on the command line, split into its components
    (proper names: no [.] or [..]). *)
Record pathname := mkPathname { absolute : bool; components : list string }.

(** The options as the user typed them: [None] where an option is left out. *)
Record command_line := mkCommandLine {
  opt_source : option pathname;
  opt_output : option pathname;
  opt_max_zoom : option Z;
  opt_min_zoom : option Z;
  opt_extension : option string;
  opt_silent : bool;
  opt_clean : bool;
  opt_yes : bool
}.

(** [args], after [parser.parse_args()] and the [[0]] of lines 113-116. *)
Record arguments := mkArguments {
  input_dir : pathname;
  dirname : pathname;
  max_zoom : Z;
  min_zoom : Z;
  extension : string;
  silent : bool;
  clean : bool;
  yes : bool
}.

Definition with_min_zoom (given : option Z) (cl : command_line) : command_line :=
  mkCommandLine (opt_source cl) (opt_output cl) (opt_max_zoom cl) given
                (opt_extension cl) (opt_silent cl) (opt_clean cl) (opt_yes cl).

Definition with_max_zoom (given : option Z) (cl : command_line) : command_line :=
  mkCommandLine (opt_source cl) (opt_output cl) given (opt_min_zoom cl)
                (opt_extension cl) (opt_silent cl) (opt_clean cl) (opt_yes cl).

(** argparse: [default=['./']], [default=['./tiles/']], [default=[-1]]
    (twice), [default=['.mbtiles']] and the [store_true] flags. *)
Definition parse_args (cl : command_line) : arguments :=
  {| input_dir := default (mkPathname false []) (opt_source cl);
     dirname := default (mkPathname false ["tiles"%string]) (opt_output cl);
     max_zoom := default (-1) (opt_max_zoom cl);
     min_zoom := default (-1) (opt_min_zoom cl);
     extension := default ".mbtiles"%string (opt_extension cl);
     silent := opt_silent cl;
     clean := opt_clean cl;
     yes := opt_yes cl |}.

(* ===================================================================== *)
(** ** Program state and the monad of the script                          *)
(* ===================================================================== *)

(** Absolute paths, root first. *)
Abbreviation path := (list string).

Inductive node :=
| Dir
| File (content : list byte).

(** One line of the "Files to parse" listing, [parse_message[k]]:
    [' | {l} tiles, zoom levels: {z}'],
    [' Error: Unsupported tile format: {img_format}'],
    [' Error: Missing format metadata'],
    [' Error: Operational Error: {str(e)}']. *)
Inductive diagnostic :=
| Summary (l : Z) (zooms : list N)
| UnsupportedFormat (img_format : sqlval)
| MissingFormatMetadata
| OperationalFailure.

(** The file system as the process sees it (working directory and the
    directories and files by absolute path) and the module-level variables
    the script assigns.  [out_format] is [None] while the name is unbound. *)
Record state := mkState {
  cwd : path;
  nodes : gmap path node;
  files_to_parse : list path;
  names_to_parse : list string;
  parse_message : list diagnostic;
  files_exported : list string;
  out_format : option string
}.

Definition set_cwd (p : path) (s : state) : state :=
  mkState p (nodes s) (files_to_parse s) (names_to_parse s)
          (parse_message s) (files_exported s) (out_format s).

Definition set_nodes (m : gmap path node) (s : state) : state :=
  mkState (cwd s) m (files_to_parse s) (names_to_parse s)
          (parse_message s) (files_exported s) (out_format s).

Definition set_out_format (e : string) (s : state) : state :=
  mkState (cwd s) (nodes s) (files_to_parse s) (names_to_parse s)
          (parse_message s) (files_exported s) (Some e).

Definition add_to_parse (p : path) (name : string) (s : state) : state :=
  mkState (cwd s) (nodes s) (files_to_parse s ++ [p]) (names_to_parse s ++ [name])
          (parse_message s) (files_exported s) (out_format s).

Definition add_message (d : diagnostic) (s : state) : state :=
  mkState (cwd s) (nodes s) (files_to_parse s) (names_to_parse s)
          (parse_message s ++ [d]) (files_exported s) (out_format s).

Definition add_exported (name : string) (s : state) : state :=
  mkState (cwd s) (nodes s) (files_to_parse s) (names_to_parse s)
          (parse_message s) (files_exported s ++ [name]) (out_format s).

(** A statement: from a state to a value or an exception, and the state it
    leaves behind. *)
Definition M (A : Type) : Type := state -> result A * state.

Definition ret {A} (a : A) : M A := fun s => (Ok a, s).

Definition bind {A B} (m : M A) (k : A -> M B) : M B := fun s =>
  match m s with
  | (Ok a, s') => k a s'
  | (Raise e, s') => (Raise e, s')
  end.

Notation "'let*' x := m 'in' k" := (bind m (fun x => k))
  (at level 10, x name, m at level 100, k at level 200).
Notation "m >> k" := (bind m (fun _ => k))
  (at level 100, k at level 200, right associativity).

Definition raise {A} (e : exn) : M A := fun s => (Raise e, s).

Definition lift {A} (r : result A) : M A := fun s => (r, s).

Definition gets {A} (f : state -> A) : M A := fun s => (Ok (f s), s).

Definition modify (f : state -> state) : M unit := fun s => (Ok tt, f s).

(** [try: body / except sqlite3.OperationalError: handler]. *)
Definition try_except_OperationalError (body handler : M unit) : M unit :=
  fun s =>
    match body s with
    | (Raise OperationalError, s') => handler s'
    | r => r
    end.

(** [for x in xs: body(x)]. *)
Fixpoint for_each {A} (xs : list A) (body : A -> M unit) : M unit :=
  match xs with
  | [] => ret tt
  | x :: xs' => body x >> for_each xs' body
  end.

(** What the process finds outside itself. *)
Record environment := mkEnvironment {
  args : arguments;
  (** [onlyfiles]: the regular files of the source directory (line 119) *)
  onlyfiles : list string;
  (** the archives on disk, by absolute path *)
  archives : gmap path database;
  (** [os.popen('stty size').read().split()] as two numbers, if it is that *)
  stty_size : option (Z * Z);
  (** [input(...).lower()], the answer to the cleaning question *)
  response : string
}.

(* ===================================================================== *)
(** ** Helper functions (lines 41-87)                                     *)
(* ===================================================================== *)

(** Python's [str] on an [int]. *)
Definition str (z : Z) : string := pretty z.

(** Pillow (since 4.2) has no JPEG encoding of an RGBA image.  [im.save] of
    an RGBA image under a name made of a number and [.jpg], as the tiles of
    a jpg archive are named, picks the JPEG writer from the extension, opens
    the file with mode [w+b], which empties it, and the writer raises
    [OSError: cannot write mode RGBA as JPEG]; a file that was there before
    is left in place, empty. *)
Definition refuses_rgba_jpeg (lib : ImageLib) : Prop :=
  forall (n : Z) (im : image),
    image_save (str n ++ ".jpg")%string im = SaveError (Some []).

Definition resolve (wd : path) (pn : pathname) : path :=
  if absolute pn then components pn else wd ++ components pn.

(** [os.path.exists(d)] for a name [d] in the working directory. *)
Definition path_exists (d : string) : M bool :=
  gets (fun s => bool_decide (is_Some (nodes s !! (cwd s ++ [d])))).

(** [os.makedirs(d)] for a name [d] in the working directory that does not
    exist. *)
Definition makedirs (d : string) : M unit :=
  modify (fun s => set_nodes (<[cwd s ++ [d] := Dir]> (nodes s)) s).

(** [os.chdir] to an absolute path. *)
Definition chdir_path (p : path) : M unit := fun s =>
  match nodes s !! p with
  | Some Dir => (Ok tt, set_cwd p s)
  | Some (File _) => (Raise NotADirectoryError, s)
  | None => (Raise FileNotFoundError, s)
  end.

(** [os.chdir(d)] for a name [d] in the working directory. *)
Definition chdir (d : string) : M unit := fun s => chdir_path (cwd s ++ [d]) s.

(** [os.chdir('..')]; the parent of the root is the root. *)
Definition chdir_up : M unit := modify (fun s => set_cwd (removelast (cwd s)) s).

Definition safeMakeDir (d : string) : M unit :=
  let* ex := path_exists d in
  if ex then ret tt else makedirs d.

Definition setDir (d : string) : M unit :=
  safeMakeDir d >> chdir d.

(** [printProgressBar(iteration, total, ...)]: the bar goes to the console;
    [iteration / float(total)] raises on a zero total. *)
Definition printProgressBar (iteration total : Z) : M unit :=
  if bool_decide (total = 0) then raise ZeroDivisionError else ret tt.

(** [delete_all_in_folder(folder)], the loop of lines 76-85 taken as a
    whole: [os.listdir] raises unless [folder] is a directory; every entry
    is unlinked or removed with all below it, which leaves no path strictly
    below [folder].  Permissions are not modelled, so no removal fails and
    the [exit(1)] of line 85 is not reached.  The loop statement by
    statement is [delete_all_in_folder_loop] below. *)
Definition delete_all_in_folder (folder : path) : M unit := fun s =>
  match nodes s !! folder with
  | Some Dir =>
      (Ok tt,
       set_nodes (filter (fun kv => ~ (folder `prefix_of` kv.1 /\ kv.1 <> folder))
                         (nodes s)) s)
  | Some (File _) => (Raise NotADirectoryError, s)
  | None => (Raise FileNotFoundError, s)
  end.

(** The part of [p] below [folder], when [p] is at or below it. *)
Fixpoint below (folder p : path) : option path :=
  match folder, p with
  | [], _ => Some p
  | d :: folder', d' :: p' => if decide (d = d') then below folder' p' else None
  | _ :: _, [] => None
  end.

Definition entry_name (folder p : path) : option string :=
  match below folder p with
  | Some [name] => Some name
  | _ => None
  end.

(** [os.listdir(folder)]: the names of the entries of [folder], in the
    order in which the file system hands them out. *)
Definition listdir (folder : path) (fs : gmap path node) : list string :=
  omap (fun kv => entry_name folder kv.1) (map_to_list fs).

(** [os.unlink(file_path)]. *)
Definition unlink (file_path : path) : M unit :=
  modify (fun s => set_nodes (delete file_path (nodes s)) s).

(** [shutil.rmtree(file_path)]: the directory and all that is below it. *)
Definition rmtree (file_path : path) : M unit :=
  modify (fun s =>
    set_nodes (filter (fun kv => ~ file_path `prefix_of` kv.1) (nodes s)) s).

(** The body of [for filename in os.listdir(folder)] (lines 77-82): a file
    is unlinked, a directory removed with its content. *)
Definition delete_entry (folder : path) (filename : string) : M unit := fun s =>
  let file_path := folder ++ [filename] in
  match nodes s !! file_path with
  | Some (File _) => unlink file_path s
  | Some Dir => rmtree file_path s
  | None => (Ok tt, s)
  end.

(** Lines 76-85: the directory is listed once, then the entries are
    deleted one after the other. *)
Definition delete_all_in_folder_loop (folder : path) : M unit := fun s =>
  match nodes s !! folder with
  | Some Dir => for_each (listdir folder (nodes s)) (delete_entry folder) s
  | Some (File _) => (Raise NotADirectoryError, s)
  | None => (Raise FileNotFoundError, s)
  end.

(** [os.path.splitext] on a file name without separators: the extension
    starts at the last dot, unless only dots come before it. *)
Fixpoint rsplit_dot (p : string) : option (string * string) :=
  match p with
  | EmptyString => None
  | String c p' =>
      match rsplit_dot p' with
      | Some (root, ext) => Some (String c root, ext)
      | None => if Ascii.eqb c "."%char then Some (EmptyString, p) else None
      end
  end.

Fixpoint all_dots (p : string) : bool :=
  match p with
  | EmptyString => true
  | String c p' => Ascii.eqb c "."%char && all_dots p'
  end.

Definition splitext (p : string) : string * string :=
  match rsplit_dot p with
  | Some (root, ext) => if all_dots root then (p, EmptyString) else (root, ext)
  | None => (p, EmptyString)
  end.

(* ===================================================================== *)
(** ** Archive validation (lines 142-174)                                 *)
(* ===================================================================== *)

(** [sqlite3.connect(input_dir + '/' + file_name)]: the archive at that
    path, seen from the working directory.  Where no file is at the path,
    SQLite creates an empty database, on which every query of the script
    raises [OperationalError]; the archives are kept apart from [nodes],
    and the empty file that this leaves on disk is not recorded there. *)
Definition connect (env : environment) (file_name : string) : M database :=
  gets (fun s =>
    default empty_database
      (archives env !! (resolve (cwd s) (input_dir (args env)) ++ [file_name]))).

(** [cursor.fetchone()[0]]: subscripting [None] raises [TypeError]. *)
Definition subscript0 (row : option sqlval) : M sqlval :=
  match row with
  | Some v => ret v
  | None => raise TypeError
  end.

(** The test of line 159:
    [img_format and (img_format == 'png' or img_format == 'jpg' or
    img_format == 'jpeg')]. *)
Definition supported_format (img_format : sqlval) : bool :=
  truthy img_format
  && (eq_str img_format "png" || eq_str img_format "jpg"
      || eq_str img_format "jpeg").

(** The body of the [try] of lines 155-172. *)
Definition inspect_archive (env : environment) (file_name : string) : M unit :=
  let* db := connect env file_name in
  let* row := lift (fetch_format db) in
  let* img_format := subscript0 row in
  if supported_format img_format then
    modify (add_exported file_name) >>
    let* l := lift (count_tiles db) in
    let* s := lift (distinct_zoom_levels db) in
    modify (add_message (Summary l s))
  else if truthy img_format then
    modify (add_message (UnsupportedFormat img_format))
  else
    modify (add_message MissingFormatMetadata).

(** The body of [for file_name in onlyfiles] (lines 150-174). *)
Definition validate_file (env : environment) (file_name : string) : M unit :=
  let file_extension := (splitext file_name).2 in
  if bool_decide (file_extension = extension (args env)) then
    (let* wd := gets cwd in
     modify (add_to_parse (resolve wd (input_dir (args env)) ++ [file_name])
                          file_name)) >>
    try_except_OperationalError
      (inspect_archive env file_name)
      (modify (add_message OperationalFailure))
  else ret tt.

Definition validate (env : environment) : M unit :=
  for_each (onlyfiles env) (validate_file env).

(* ===================================================================== *)
(** ** Listing, export-set check and cleaning (lines 176-225)             *)
(* ===================================================================== *)

(** [rows, columns = os.popen('stty size', 'r').read().split()] and
    [int(columns)]: anything but two numbers raises [ValueError]. *)
Definition read_stty (env : environment) : M unit :=
  match stty_size env with
  | Some _ => ret tt
  | None => raise ValueError
  end.

(** [if files_exported == []: ... exit(1)]. *)
Definition check_export_set : M unit :=
  let* fe := gets files_exported in
  match fe with
  | [] => raise (SystemExit 1)
  | _ :: _ => ret tt
  end.

Definition is_yes (r : string) : bool :=
  bool_decide (r = "y"%string) || bool_decide (r = "yes"%string)
  || bool_decide (r = "yea"%string) || bool_decide (r = "yeah"%string).

(** Lines 212-225. *)
Definition clean_output (env : environment) : M unit :=
  if clean (args env) then
    let* wd := gets cwd in
    if silent (args env) || yes (args env) then
      delete_all_in_folder (resolve wd (dirname (args env)))
    else if is_yes (response env) then
      delete_all_in_folder (resolve wd (dirname (args env)))
    else raise (SystemExit 1)
  else ret tt.

(* ===================================================================== *)
(** ** Extraction (lines 256-318)                                         *)
(* ===================================================================== *)

Section extraction.

Context {lib : ImageLib}.

(** Lines 267-273.  Only ['png'] and ['jpg'] assign [out_format]; on any
    other fetched value no branch assigns it and the name keeps what it had
    (nothing, on the first archive). *)
Definition determine_out_format (img_format : option sqlval) : M unit :=
  match img_format with
  | Some v =>
      if eq_str v "png" then modify (set_out_format ".png")
      else if eq_str v "jpg" then modify (set_out_format ".jpg")
      else ret tt
  | None => modify (set_out_format EmptyString)
  end.

(** Reading the name [out_format]: [NameError] while it is unbound. *)
Definition read_out_format : M string := fun s =>
  match out_format s with
  | Some e => (Ok e, s)
  | None => (Raise NameError, s)
  end.

(** [str((2**row[0]) - 1 - row[2]) + out_format] (line 296). *)
Definition image_name (row : tile) (ext : string) : string :=
  (str (2 ^ Z.of_N (zoom_level row) - 1 - tile_row row) ++ ext)%string.

(** [Image.open(name).convert("RGBA")] for a name in the working directory
    that exists. *)
Definition Image_open_file (name : string) : M image := fun s =>
  match nodes s !! (cwd s ++ [name]) with
  | Some (File b) =>
      match image_open b with
      | Some im => (Ok im, s)
      | None => (Raise ImageOpenError, s)
      end
  | Some Dir => (Raise IsADirectoryError, s)
  | None => (Raise FileNotFoundError, s)
  end.

(** [Image.open(io.BytesIO(data)).convert("RGBA")]. *)
Definition Image_open_bytes (data : list byte) : M image :=
  match image_open data with
  | Some im => ret im
  | None => raise ImageOpenError
  end.

(** [open(name, 'wb')], [write(data)], [close()]. *)
Definition write_file (name : string) (data : list byte) : M unit :=
  modify (fun s => set_nodes (<[cwd s ++ [name] := File data]> (nodes s)) s).

(** [im.save(name)]. *)
Definition Image_save (name : string) (im : image) : M unit :=
  match image_save name im with
  | Saved b => write_file name b
  | SaveError (Some b) => write_file name b >> raise ImageSaveError
  | SaveError None => raise ImageSaveError
  end.

(** Lines 297-306: composite onto the file that is there, or write the tile
    as it is. *)
Definition write_or_composite (name : string) (data : list byte) : M unit :=
  let* ex := path_exists name in
  if ex then
    let* im1 := Image_open_file name in
    let* im2 := Image_open_bytes data in
    Image_save name (paste im1 im2)
  else
    write_file name data.

(** Lines 294-306: enter [zoom/column/], name the tile, write it. *)
Definition place_tile (row : tile) : M unit :=
  setDir (str (Z.of_N (zoom_level row))) >>
  setDir (str (tile_column row)) >>
  let* ext := read_out_format in
  write_or_composite (image_name row ext) (tile_data row).

(** The body of [for row in cursor] (lines 294-313); [i] counts the rows
    done so far and [l] is the archive's row count. *)
Definition tile_step (l i : Z) (row : tile) : M unit :=
  place_tile row >>
  (if bool_decide (i mod 5 = 0) then printProgressBar i l else ret tt) >>
  chdir_up >>
  chdir_up.

Fixpoint tile_loop (l i : Z) (rows : list tile) : M unit :=
  match rows with
  | [] => ret tt
  | row :: rows' => tile_step l i row >> tile_loop l (i + 1) rows'
  end.

(** Lines 257-290 of the body of [for file_name in files_exported]: open
    the archive, fix the extension, count the rows, run the filtered query
    and enter the output directory. *)
Definition open_archive (env : environment) (file_name : string)
  : M (Z * list tile) :=
  let* db := connect env file_name in
  let* img_format := lift (fetch_format db) in
  determine_out_format img_format >>
  let* l := lift (count_tiles db) in
  let* rows := lift (select_tiles (min_zoom (args env)) (max_zoom (args env)) db) in
  printProgressBar 0 l >>
  (let* wd := gets cwd in chdir_path (resolve wd (dirname (args env)))) >>
  ret (l, rows).

(** The whole body (lines 257-317). *)
Definition export_file (env : environment) (file_name : string) : M unit :=
  let* lr := open_archive env file_name in
  tile_loop lr.1 0 lr.2 >>
  chdir_up >>
  printProgressBar lr.1 lr.1.

Definition extract (env : environment) : M unit :=
  let* fe := gets files_exported in
  for_each fe (export_file env).

(** Lines 142-225: everything before the extraction loop. *)
Definition prepare (env : environment) : M unit :=
  validate env >>
  read_stty env >>
  check_export_set >>
  clean_output env.

(** The script from line 142 on.  Lines 112-140 have listed the source
    directory ([onlyfiles]) and made sure the output directory exists. *)
Definition main (env : environment) : M unit :=
  prepare env >> extract env.

(** *** Conditions on a tile and the state it is placed in *)

(** The directory and the path at which [place_tile] puts [row] when it
    starts in the output directory with extension [ext]. *)
Definition tile_dir (s : state) (row : tile) : path :=
  cwd s ++ [str (Z.of_N (zoom_level row)); str (tile_column row)].

Definition tile_path (s : state) (row : tile) (ext : string) : path :=
  cwd s ++ [str (Z.of_N (zoom_level row)); str (tile_column row);
            image_name row ext].

(** Neither [zoom/] nor [zoom/column/] is a regular file: each is absent
    or a directory. *)
Definition dirs_free (s : state) (row : tile) : Prop :=
  (forall b, nodes s !! (cwd s ++ [str (Z.of_N (zoom_level row))]) <> Some (File b))
  /\ (forall b, nodes s !! tile_dir s row <> Some (File b)).

(** The nodes once [zoom/] and [zoom/column/] exist. *)
Definition with_dirs (s : state) (row : tile) : gmap path node :=
  <[tile_dir s row := Dir]>
    (<[cwd s ++ [str (Z.of_N (zoom_level row))] := Dir]> (nodes s)).

(** The state after [setDir d] went through. *)
Definition entered (d : string) (s : state) : state :=
  set_cwd (cwd s ++ [d]) (set_nodes (<[cwd s ++ [d] := Dir]> (nodes s)) s).

(** The state in which the tile's file is looked up and written. *)
Definition in_tile_dir (s : state) (row : tile) : state :=
  set_cwd (tile_dir s row) (set_nodes (with_dirs s row) s).

(** The state once [data] is in the tile's file. *)
Definition tile_written (s : state) (row : tile) (ext : string)
    (data : list byte) : state :=
  set_nodes (<[tile_path s row ext := File data]> (with_dirs s row))
            (in_tile_dir s row).

(** A decode of either image, or the encode of the composite, fails. *)
Definition codec_failure (old data : list byte) (name : string) : Prop :=
  image_open old = None
  \/ image_open data = None
  \/ exists im1 im2 r,
       image_open old = Some im1 /\ image_open data = Some im2
       /\ image_save name (paste im1 im2) = SaveError r.

(** Saving [im] under [name], when it succeeds, can be read back as [im]. *)
Definition lossless_at (name : string) (im : image) : Prop :=
  forall b, image_save name im = Saved b -> image_open b = Some im.

End extraction.

(** The state in which line 142 starts: nothing assigned yet. *)
Definition initial_state (wd : path) (fs : gmap path node) : state :=
  mkState wd fs [] [] [] [] None.

(* ===================================================================== *)
(** ** The zoom filter in the words of the specification                  *)
(* ===================================================================== *)

(** The coordinate translator: [translate(zoom, column, row)]. *)
Definition translate (zoom : N) (column row : Z) : N * Z * Z :=
  (zoom, column, 2 ^ Z.of_N zoom - 1 - row).

(** The bound the script acts on for a bound given on the command line. *)
Definition effective_bound (given : option Z) : option Z :=
  match given with
  | Some z => if bool_decide (z = -1) then None else Some z
  | None => None
  end.

(** A tile is inside the filter [[minZoom, maxZoom]] when its zoom level
    satisfies each bound that is present. *)
Definition in_zoom_range (minZoom maxZoom : option Z) (t : tile) : Prop :=
  match minZoom with Some lo => lo <= Z.of_N (zoom_level t) | None => True end
  /\ match maxZoom with Some hi => Z.of_N (zoom_level t) <= hi | None => True end.

#[global] Instance in_zoom_range_dec mn mx t : Decision (in_zoom_range mn mx t).
Proof. unfold in_zoom_range. destruct mn, mx; apply _. Defined.

(* ===================================================================== *)
(** ** What the console shows of the progress (lines 64-67, 176-185)      *)
(* ===================================================================== *)

(** A Python [str] as the console counts it: the list of its code points
    ([len] is the length of the list). *)
Definition text := list N.

(** Python's [s * n] on a string: [n] copies, none for [n <= 0]. *)
Fixpoint repeat_text (s : text) (n : nat) : text :=
  match n with
  | O => []
  | S n' => s ++ repeat_text s n'
  end.

Definition times (s : text) (n : Z) : text :=
  repeat_text s (Z.to_nat n).

(** The default [fill = '█'] (U+2588, one code point) and ['-']. *)
Definition full_block : text := [9608%N].
Definition dash : text := [45%N].

(** [filledLength = int(length * iteration // total)] (line 66). *)
Definition filledLength (length iteration total : Z) : Z :=
  length * iteration / total.

(** [bar = fill * filledLength + '-' * (length - filledLength)] (line 67). *)
Definition bar (fill : text) (length iteration total : Z) : text :=
  times fill (filledLength length iteration total)
  ++ times dash (length - filledLength length iteration total).

(** Lines 176-179: the length of the longest archive name. *)
Definition longest_name (names : list string) : Z :=
  fold_left (fun longest name =>
               if Z.of_nat (String.length name) >? longest
               then Z.of_nat (String.length name) else longest)
            names 0.

(** Lines 182-185: [int(columns) - longest_name - 53], not below zero. *)
Definition loading_length (columns longest : Z) : Z :=
  let loading := columns - longest - 53 in
  if loading <? 0 then 0 else loading.

(* ===================================================================== *)
(** ** Predicates used to state properties of the script                  *)
(* ===================================================================== *)

(** [s'] has every path of [s], and every directory of [s] still as a
    directory. *)
Definition keeps_paths (s s' : state) : Prop :=
  forall p, (is_Some (nodes s !! p) -> is_Some (nodes s' !! p))
            /\ (nodes s !! p = Some Dir -> nodes s' !! p = Some Dir).

(** A statement that, whatever it returns, removes no path and replaces no
    directory. *)
Definition never_removes {A} (m : M A) : Prop :=
  forall s, keeps_paths s (m s).2.

(** A statement that, whatever it returns, leaves the file system, the
    working directory and [out_format] alone. *)
Definition leaves_files {A} (m : M A) : Prop :=
  forall s, cwd (m s).2 = cwd s /\ nodes (m s).2 = nodes s
            /\ out_format (m s).2 = out_format s.

(** Below [folder] the nodes form a tree: whatever is there sits in a
    directory. *)
Definition tree_below (folder : path) (fs : gmap path node) : Prop :=
  forall p name, folder `prefix_of` p -> is_Some (fs !! (p ++ [name])) ->
                 fs !! p = Some Dir.

(** [tree_below], checked path by path. *)
Definition is_dir (fs : gmap path node) (p : path) : bool :=
  match fs !! p with
  | Some Dir => true
  | _ => false
  end.

Definition tree_belowb (folder : path) (fs : gmap path node) : bool :=
  forallb (fun kv : path * node =>
             match kv.1 with
             | [] => true
             | _ :: _ =>
                 implb (bool_decide (folder `prefix_of` removelast kv.1))
                       (is_dir fs (removelast kv.1))
             end)
          (map_to_list fs).

(** The two images have the same number of rows, each of the same width. *)
Definition same_size (im1 im2 : image) : Prop :=
  Forall2 (fun r1 r2 : list pixel => length r1 = length r2) im1 im2.

(** A tile all of whose pixels have alpha 255. *)
Definition opaque (im : image) : Prop :=
  Forall (Forall (fun p => alpha p = xff)) im.

(** The coordinates of a tile record. *)
Definition coordinates (row : tile) : N * Z * Z :=
  (zoom_level row, tile_column row, tile_row row).

(** Nothing is in the way of [row] below the working directory: its two
    directories are not regular files and nothing is at its path. *)
Definition place_free (s : state) (ext : string) (row : tile)
  : Prop :=
  dirs_free s row /\ nodes s !! tile_path s row ext = None.

(* ===================================================================== *)
(** ** A reference codec, for running the model on concrete tiles         *)
(* ===================================================================== *)

Module RawCodec.

(** A file is the rows of an image one after the other; a row is its
    pixels, each a byte 1 followed by its four bands, closed by a byte 0.
    Only names ending in [.png] can be saved; the failed save of another
    name leaves the file empty. *)
Definition encode_pixel (p : pixel) : list byte :=
  [x01; red p; green p; blue p; alpha p].

Definition encode_row (r : list pixel) : list byte :=
  concat (map encode_pixel r) ++ [x00].

Definition encode (im : image) : list byte :=
  concat (map encode_row im).

Fixpoint decode (b : list byte) : option image :=
  match b with
  | [] => Some []
  | x00 :: b' => cons [] <$> decode b'
  | x01 :: r :: g :: bl :: a :: b' =>
      match decode b' with
      | Some (row :: rows) => Some ((mkPixel r g bl a :: row) :: rows)
      | _ => None
      end
  | _ => None
  end.

Definition raw_save (name : string) (im : image) : save_result :=
  if bool_decide (String.list_ascii_of_string ".png"
                  `suffix_of` String.list_ascii_of_string name) then
    Saved (encode im)
  else SaveError (Some []).

Definition raw : ImageLib :=
  {| image_open := decode; image_save := raw_save |}.

End RawCodec.

(* ===================================================================== *)
(** ** Sample archives and output trees                                   *)
(* ===================================================================== *)

Module Sample.

Import RawCodec.

#[local] Existing Instance raw.

Definition solid : pixel := mkPixel x0a x14 x1e xff.
Definition half : pixel := mkPixel xc8 x64 x32 x80.
Definition clear : pixel := mkPixel x00 x00 x00 x00.

(** A tile holding a one-pixel image. *)
Definition tile_of (z : N) (c r : Z) (p : pixel) : tile :=
  mkTile z c r (encode [[p]]).

(** A tile whose bytes are no image. *)
Definition broken_tile (z : N) (c r : Z) : tile := mkTile z c r [x07].

Definition home : list string := ["home"%string].
Definition out_dir : list string := ["home"%string; "tiles"%string].

(** [/home] with an empty [tiles/] in it. *)
Definition fresh_tree : gmap (list string) node :=
  <[out_dir := Dir]> (<[home := Dir]> ∅).

(** The same with [tiles/2/1/3.png] holding [p]. *)
Definition tree_with (p : pixel) : gmap (list string) node :=
  <[out_dir ++ ["2"; "1"; "3.png"]%string := File (encode [[p]])]>
    (<[out_dir ++ ["2"; "1"]%string := Dir]>
       (<[out_dir ++ ["2"]%string := Dir]> fresh_tree)).

(** In the output directory, extension [.png] assigned. *)
Definition in_output (fs : gmap (list string) node) : state :=
  mkState out_dir fs [] [] [] [] (Some ".png"%string).

(** [tiles/] with [tiles/2/1/3.jpg] holding [p]. *)
Definition jpg_tree_with (p : pixel) : gmap (list string) node :=
  <[out_dir ++ ["2"; "1"; "3.jpg"]%string := File (encode [[p]])]>
    (<[out_dir ++ ["2"; "1"]%string := Dir]>
       (<[out_dir ++ ["2"]%string := Dir]> fresh_tree)).

(** In the output directory, extension [.jpg] assigned. *)
Definition in_jpg_output (fs : gmap (list string) node) : state :=
  mkState out_dir fs [] [] [] [] (Some ".jpg"%string).

Definition no_options : command_line :=
  mkCommandLine None None None None None false false false.

(** A source directory [/home] holding [name] (and a text file), run from
    [/home] without options on a terminal. *)
Definition one_archive (name : string) (db : database) : environment :=
  mkEnvironment (parse_args no_options) [name; "b.txt"%string]
                {[ home ++ [name] := db ]} (Some (24, 80)) EmptyString.

Definition two_archives (n1 : string) (db1 : database)
    (n2 : string) (db2 : database) : environment :=
  mkEnvironment (parse_args no_options) [n1; n2]
                (<[home ++ [n2] := db2]> {[ home ++ [n1] := db1 ]})
                (Some (24, 80)) EmptyString.

Definition start : state := initial_state home fresh_tree.

Definition png_meta : option (list (string * sqlval)) :=
  Some [("name"%string, SText "sample"); ("format"%string, SText "png")].

Definition jpeg_meta : option (list (string * sqlval)) :=
  Some [("name"%string, SText "sample"); ("format"%string, SText "jpeg")].

Definition jpg_meta : option (list (string * sqlval)) :=
  Some [("name"%string, SText "sample"); ("format"%string, SText "jpg")].

(** A [metadata] relation without a row named [format]. *)
Definition bare_meta : option (list (string * sqlval)) :=
  Some [("name"%string, SText "sample")].

(** [tiles/] with a regular file named [2] in it. *)
Definition blocked_tree : gmap (list string) node :=
  <[out_dir ++ ["2"]%string := File []]> fresh_tree.

(** A png archive with the given rows. *)
Definition png_db (rows : list tile) : database :=
  mkDatabase png_meta (Some rows).

(** [--clean], with or without [--yes]. *)
Definition clean_options (y : bool) : command_line :=
  mkCommandLine None None None None None false true y.

(** One archive in [/home], run from [/home] with the given options and
    the given answer to the cleaning question. *)
Definition archive_env (cl : command_line) (answer : string)
    (name : string) (db : database) : environment :=
  mkEnvironment (parse_args cl) [name; "b.txt"%string]
                {[ home ++ [name] := db ]} (Some (24, 80)) answer.

End Sample.
Section paste_facts.

Lemma band_range b : 0 <= band b <= 255.
Proof.
  unfold band. pose proof (Byte.to_N_bounded b). lia.
Qed.

Lemma uint8_band b : uint8 (band b) = b.
Proof.
  unfold uint8. pose proof (band_range b) as Hb.
  replace (Z.land (band b) 255) with (band b).
  - unfold band. rewrite N2Z.id, Byte.of_to_N. reflexivity.
  - change 255 with (Z.ones 8). rewrite Z.land_ones by lia.
    symmetry. apply Z.mod_small. change (2 ^ 8) with 256. lia.
Qed.

Lemma DIV255_scaled v : 0 <= v <= 255 -> DIV255 (255 * v) = v.
Proof.
  intros Hv. unfold DIV255. cbv zeta.
  rewrite !Z.shiftr_div_pow2 by lia. change (2 ^ 8) with 256.
  assert (Hq : v - 1 <= (255 * v + 128) / 256 <= v).
  { split.
    - apply Z.div_le_lower_bound; lia.
    - apply Z.lt_succ_r. apply Z.div_lt_upper_bound; lia. }
  symmetry. apply Z.div_unique with
    (r := (255 * v + 128) / 256 + 128 - v); lia.
Qed.

(** A zero mask keeps the destination band. *)
Lemma blend_band_mask0 out inp : blend_band x00 out inp = out.
Proof.
  unfold blend_band, BLEND8. change (band x00) with 0.
  replace (band out * (255 - 0) + band inp * 0) with (255 * band out) by lia.
  rewrite DIV255_scaled by apply band_range. apply uint8_band.
Qed.


Lemma blend_pixel_mask0 mask out inp :
  alpha mask = x00 -> blend_pixel mask out inp = out.
Proof.
  intros H. unfold blend_pixel. rewrite H, !blend_band_mask0.
  destruct out; reflexivity.
Qed.


Lemma paste_row_transparent out inp :
  Forall (fun p => alpha p = x00) inp -> paste_row out inp = out.
Proof.
  revert inp. induction out as [|o out IH]; intros [|i inp] H; simpl; auto.
  inversion H; subst. rewrite blend_pixel_mask0 by assumption.
  f_equal. apply IH. assumption.
Qed.

Lemma paste_transparent im1 im2 :
  fully_transparent im2 -> paste im1 im2 = im1.
Proof.
  unfold fully_transparent. revert im2.
  induction im1 as [|r im1 IH]; intros [|r2 im2] H; simpl; auto.
  inversion H; subst. rewrite paste_row_transparent by assumption.
  f_equal. apply IH. assumption.
Qed.



End paste_facts.

(* ===================================================================== *)
(** ** Running statements                                                 *)
(* ===================================================================== *)

Section monad_facts.

Lemma bind_ok {A B} (m : M A) (k : A -> M B) s a s' :
  m s = (Ok a, s') -> bind m k s = k a s'.
Proof. intros H. unfold bind. rewrite H. reflexivity. Qed.

Lemma bind_raise {A B} (m : M A) (k : A -> M B) s e s' :
  m s = (Raise e, s') -> bind m k s = (Raise e, s').
Proof. intros H. unfold bind. rewrite H. reflexivity. Qed.

(** A loop stops at the first iteration that raises. *)
Lemma for_each_raise {A} (body : A -> M unit) done x rest s s1 e s2 :
  for_each done body s = (Ok tt, s1) ->
  body x s1 = (Raise e, s2) ->
  for_each (done ++ x :: rest) body s = (Raise e, s2).
Proof.
  revert s. induction done as [|y done IH]; simpl; intros s Hdone Hx.
  - inversion Hdone; subst. apply bind_raise. assumption.
  - unfold bind in *. destruct (body y s) as [[[]|e'] s'].
    + apply IH; assumption.
    + discriminate.
Qed.

End monad_facts.

(* ===================================================================== *)
(** ** Placing one tile                                                   *)
(* ===================================================================== *)

Section place_tile_facts.

Context {lib : ImageLib}.

Lemma setDir_eq d s :
  setDir d s =
  match nodes s !! (cwd s ++ [d]) with
  | Some (File _) => (Raise NotADirectoryError, s)
  | _ => (Ok tt, entered d s)
  end.
Proof.
  unfold setDir, safeMakeDir, bind, path_exists, gets, makedirs, modify,
    chdir, chdir_path, ret, entered.
  destruct (nodes s !! (cwd s ++ [d])) as [[|b]|] eqn:E.
  - rewrite bool_decide_eq_true_2 by eauto. cbn [nodes set_cwd cwd].
    rewrite E, insert_id by assumption. destruct s; reflexivity.
  - rewrite bool_decide_eq_true_2 by eauto. cbn [nodes set_cwd cwd].
    rewrite E. reflexivity.
  - rewrite bool_decide_eq_false_2 by (intros [? ?]; discriminate).
    cbn [nodes set_nodes cwd]. rewrite lookup_insert_eq. reflexivity.
Qed.

Lemma setDir_ok d s :
  (forall b, nodes s !! (cwd s ++ [d]) <> Some (File b)) ->
  setDir d s = (Ok tt, entered d s).
Proof.
  intros H. rewrite setDir_eq.
  destruct (nodes s !! (cwd s ++ [d])) as [[|b]|] eqn:E; try reflexivity.
  exfalso. apply (H b). reflexivity.
Qed.

Lemma enter_tile_dir s row :
  dirs_free s row ->
  (setDir (str (Z.of_N (zoom_level row))) >> setDir (str (tile_column row))) s
  = (Ok tt, in_tile_dir s row).
Proof.
  intros [Hz Hc]. unfold bind. rewrite (setDir_ok _ s Hz).
  assert (Hp : cwd (entered (str (Z.of_N (zoom_level row))) s)
               ++ [str (tile_column row)] = tile_dir s row).
  { unfold tile_dir. simpl. rewrite <- app_assoc. reflexivity. }
  rewrite setDir_ok.
  - unfold in_tile_dir, with_dirs. rewrite <- Hp. reflexivity.
  - intros b. rewrite Hp. cbn [entered nodes set_cwd set_nodes].
    destruct (decide (cwd s ++ [str (Z.of_N (zoom_level row))] = tile_dir s row))
      as [E|NE].
    + rewrite E, lookup_insert_eq. discriminate.
    + rewrite lookup_insert_ne by assumption. apply Hc.
Qed.

Lemma tile_path_eq s row ext :
  cwd (in_tile_dir s row) ++ [image_name row ext] = tile_path s row ext.
Proof.
  unfold tile_path, tile_dir. simpl. unfold tile_dir.
  rewrite <- app_assoc. reflexivity.
Qed.

(** Making the two directories does not touch the tile's path. *)
Lemma with_dirs_lookup s row ext :
  with_dirs s row !! tile_path s row ext = nodes s !! tile_path s row ext.
Proof.
  assert (N1 : tile_dir s row <> tile_path s row ext).
  { unfold tile_dir, tile_path. intros E. apply app_inv_head in E.
    discriminate. }
  assert (N2 : cwd s ++ [str (Z.of_N (zoom_level row))] <> tile_path s row ext).
  { unfold tile_path. intros E. apply app_inv_head in E. discriminate. }
  unfold with_dirs. rewrite !lookup_insert_ne by assumption. reflexivity.
Qed.

(** Directories that are there are left as they are. *)
Lemma with_dirs_id s row :
  nodes s !! (cwd s ++ [str (Z.of_N (zoom_level row))]) = Some Dir ->
  nodes s !! tile_dir s row = Some Dir ->
  with_dirs s row = nodes s.
Proof.
  intros Hz Hc. unfold with_dirs.
  rewrite (insert_id (nodes s)) by assumption.
  apply insert_id. assumption.
Qed.

Lemma Image_save_eq s row ext im :
  Image_save (image_name row ext) im (in_tile_dir s row) =
  match image_save (image_name row ext) im with
  | Saved b => (Ok tt, tile_written s row ext b)
  | SaveError (Some b) => (Raise ImageSaveError, tile_written s row ext b)
  | SaveError None => (Raise ImageSaveError, in_tile_dir s row)
  end.
Proof.
  unfold Image_save, tile_written.
  destruct (image_save (image_name row ext) im) as [b|[b|]];
    unfold write_file, modify, bind, raise; rewrite ?tile_path_eq; reflexivity.
Qed.

(** [place_tile], case by case on what is at the tile's path. *)
Lemma place_tile_eq s row ext :
  out_format s = Some ext ->
  dirs_free s row ->
  place_tile row s =
  match nodes s !! tile_path s row ext with
  | None => (Ok tt, tile_written s row ext (tile_data row))
  | Some Dir => (Raise IsADirectoryError, in_tile_dir s row)
  | Some (File old) =>
      match image_open old with
      | None => (Raise ImageOpenError, in_tile_dir s row)
      | Some im1 =>
          match image_open (tile_data row) with
          | None => (Raise ImageOpenError, in_tile_dir s row)
          | Some im2 => Image_save (image_name row ext) (paste im1 im2)
                                   (in_tile_dir s row)
          end
      end
  end.
Proof.
  intros Hext Hfree. unfold place_tile.
  pose proof (enter_tile_dir s row Hfree) as Hdir. unfold bind in *.
  destruct (setDir (str (Z.of_N (zoom_level row))) s) as [[[]|e1] s1];
    [|discriminate].
  rewrite Hdir. unfold read_out_format.
  change (out_format (in_tile_dir s row)) with (out_format s). rewrite Hext.
  unfold write_or_composite, bind, path_exists, gets, Image_open_file.
  rewrite tile_path_eq.
  change (nodes (in_tile_dir s row)) with (with_dirs s row).
  rewrite with_dirs_lookup.
  destruct (nodes s !! tile_path s row ext) as [[|old]|] eqn:E.
  - rewrite bool_decide_eq_true_2 by eauto. cbv beta.
    rewrite tile_path_eq.
    change (nodes (in_tile_dir s row)) with (with_dirs s row).
    rewrite with_dirs_lookup, E. reflexivity.
  - rewrite bool_decide_eq_true_2 by eauto. cbv beta.
    rewrite tile_path_eq.
    change (nodes (in_tile_dir s row)) with (with_dirs s row).
    rewrite with_dirs_lookup, E.
    destruct (image_open old) as [im1|]; [|reflexivity].
    unfold Image_open_bytes.
    destruct (image_open (tile_data row)) as [im2|]; reflexivity.
  - rewrite bool_decide_eq_false_2 by (intros [? ?]; discriminate).
    unfold write_file, modify, tile_written. rewrite tile_path_eq.
    reflexivity.
Qed.

(** A tile that was placed found its two directories free. *)
Lemma place_tile_ok_dirs_free s row s' :
  place_tile row s = (Ok tt, s') -> dirs_free s row.
Proof.
  unfold place_tile, bind. rewrite setDir_eq.
  destruct (nodes s !! (cwd s ++ [str (Z.of_N (zoom_level row))]))
    as [[|b]|] eqn:Ez; try discriminate;
  rewrite setDir_eq;
  assert (Hp : cwd (entered (str (Z.of_N (zoom_level row))) s)
               ++ [str (tile_column row)] = tile_dir s row)
    by (unfold tile_dir; simpl; rewrite <- app_assoc; reflexivity);
  rewrite Hp; cbn [entered nodes set_cwd set_nodes];
  (assert (NE : cwd s ++ [str (Z.of_N (zoom_level row))] <> tile_dir s row)
    by (unfold tile_dir; intros E; apply app_inv_head in E; discriminate));
  rewrite lookup_insert_ne by assumption;
  destruct (nodes s !! tile_dir s row) as [[|b]|] eqn:Ec; try discriminate;
  intros _; split; intros b' Hb; congruence.
Qed.



(** The characters of a name with an extension. *)
Lemma list_ascii_of_string_app (s1 s2 : string) :
  String.list_ascii_of_string (s1 ++ s2)
  = String.list_ascii_of_string s1 ++ String.list_ascii_of_string s2.
Proof.
  induction s1 as [|c s1 IH]; [reflexivity|].
  change (c :: String.list_ascii_of_string (s1 ++ s2)
          = c :: (String.list_ascii_of_string s1
                  ++ String.list_ascii_of_string s2)).
  rewrite IH. reflexivity.
Qed.

(** The reference codec refuses [.jpg] names as Pillow refuses RGBA. *)
Lemma raw_refuses_rgba_jpeg : refuses_rgba_jpeg RawCodec.raw.
Proof.
  intros n im. cbn [image_save RawCodec.raw]. unfold RawCodec.raw_save.
  rewrite bool_decide_eq_false_2; [reflexivity|].
  intros [k Hk]. rewrite list_ascii_of_string_app in Hk.
  apply app_inj_2 in Hk; [|reflexivity]. destruct Hk as [_ Hk].
  discriminate.
Qed.

End place_tile_facts.

(* ===================================================================== *)
(** ** Coordinate translation and the tile compositor                     *)
(* ===================================================================== *)

Section compositor.

Context {lib : ImageLib}.

(** C1.  A tile record that the extraction loop has placed sits in the file
    whose path, below the output directory, is [zoom/column/] followed by
    the decimal [2^zoom - 1 - row] and the extension: zoom and column are
    used as they are, the row is flipped as [translate] says.  Nothing but
    that file and its two directories has changed. *)
Theorem tile_row_is_flipped s row ext s' :
  out_format s = Some ext ->
  place_tile row s = (Ok tt, s') ->
  let '(zoom, column, translatedRow) :=
    translate (zoom_level row) (tile_column row) (tile_row row) in
  let p := cwd s ++ [str (Z.of_N zoom); str column;
                     (str translatedRow ++ ext)%string] in
  (exists content, nodes s' !! p = Some (File content))
  /\ (forall q, q <> p -> q <> cwd s ++ [str (Z.of_N zoom)] ->
                q <> cwd s ++ [str (Z.of_N zoom); str column] ->
                nodes s' !! q = nodes s !! q).
Proof.
  intros Hext Hrun. cbv beta iota delta [translate].
  pose proof (place_tile_ok_dirs_free s row s' Hrun) as Hfree.
  rewrite (place_tile_eq s row ext Hext Hfree) in Hrun.
  assert (Hw : exists content, s' = tile_written s row ext content).
  { destruct (nodes s !! tile_path s row ext) as [[|old]|].
    - discriminate.
    - destruct (image_open old) as [im1|]; [|discriminate].
      destruct (image_open (tile_data row)) as [im2|]; [|discriminate].
      rewrite Image_save_eq in Hrun.
      destruct (image_save _ _) as [b|[b|]]; try discriminate.
      exists b. congruence.
    - exists (tile_data row). congruence. }
  destruct Hw as [content ->]. split.
  - exists content. apply lookup_insert_eq.
  - intros q Hq Hz Hc. cbn [tile_written nodes set_nodes].
    unfold tile_path, image_name, with_dirs, tile_dir.
    rewrite !lookup_insert_ne by congruence. reflexivity.
Qed.

(** The tile compositor where the save goes through, entered through
    [place_tile] with the extension assigned and neither of the tile's
    directories a regular file: the directories are made where missing and
    left alone where present; if nothing is at the tile's path, the file is
    created holding the tile's bytes as they are; if a file is there, it and
    the tile's bytes are both decoded to RGBA, the new image is pasted onto
    the existing one at the origin under its own alpha and the result,
    encoded under the same name, replaces the file. *)
Lemma write_or_composite_spec s row ext :
  out_format s = Some ext ->
  dirs_free s row ->
  (nodes s !! (cwd s ++ [str (Z.of_N (zoom_level row))]) = Some Dir ->
   nodes s !! tile_dir s row = Some Dir ->
   with_dirs s row = nodes s)
  /\ (nodes s !! tile_path s row ext = None ->
      exists s', place_tile row s = (Ok tt, s')
        /\ cwd s' = tile_dir s row
        /\ nodes s' = <[tile_path s row ext := File (tile_data row)]>
                        (with_dirs s row))
  /\ (forall old im1 im2 b,
      nodes s !! tile_path s row ext = Some (File old) ->
      image_open old = Some im1 ->
      image_open (tile_data row) = Some im2 ->
      image_save (image_name row ext) (paste im1 im2) = Saved b ->
      exists s', place_tile row s = (Ok tt, s')
        /\ cwd s' = tile_dir s row
        /\ nodes s' = <[tile_path s row ext := File b]> (with_dirs s row)).
Proof.
  intros Hext Hfree. split; [apply with_dirs_id|]. split.
  - intros Hnone. rewrite (place_tile_eq s row ext Hext Hfree), Hnone.
    eexists. split; [reflexivity|]. split; reflexivity.
  - intros old im1 im2 b Hold H1 H2 Hsave.
    rewrite (place_tile_eq s row ext Hext Hfree), Hold, H1, H2.
    rewrite Image_save_eq, Hsave.
    eexists. split; [reflexivity|]. split; reflexivity.
Qed.

(** A half-transparent pixel pasted onto an opaque one: every band, the
    alpha band included, is the rounded mix of 128 parts of the new and 127
    parts of the old pixel. *)
Example half_over_solid :
  paste [[Sample.solid]] [[Sample.half]] = [[mkPixel x69 x3c x28 xbf]].
Proof. reflexivity. Qed.

(** C2, on the code.  Where a file is at the tile's path, the compositor
    decodes it and the tile's bytes to RGBA, pastes the new image onto the
    existing one at the origin under its own alpha, and gives the result to
    [save] under the tile's name; the file is replaced by the encoding only
    if that save goes through.  In a jpg archive it never does: Pillow does
    not write an RGBA image as JPEG, [im1.save(image_name)] has emptied the
    file when its writer raises, nothing handles the error, and the tile's
    file is left empty instead of re-encoded. *)
Theorem jpg_composite_raises s row ext old im1 im2 :
  out_format s = Some ext ->
  dirs_free s row ->
  nodes s !! tile_path s row ext = Some (File old) ->
  image_open old = Some im1 ->
  image_open (tile_data row) = Some im2 ->
  place_tile row s =
    match image_save (image_name row ext) (paste im1 im2) with
    | Saved b => (Ok tt, tile_written s row ext b)
    | SaveError (Some b) => (Raise ImageSaveError, tile_written s row ext b)
    | SaveError None => (Raise ImageSaveError, in_tile_dir s row)
    end
  /\ (refuses_rgba_jpeg lib -> ext = ".jpg"%string ->
      place_tile row s = (Raise ImageSaveError, tile_written s row ext [])
      /\ nodes (tile_written s row ext []) !! tile_path s row ext
         = Some (File [])).
Proof.
  intros Hext Hfree Hold H1 H2.
  assert (Hrun : place_tile row s =
                 Image_save (image_name row ext) (paste im1 im2)
                            (in_tile_dir s row)).
  { rewrite (place_tile_eq s row ext Hext Hfree), Hold, H1, H2. reflexivity. }
  split.
  - rewrite Hrun. apply Image_save_eq.
  - intros Hjpg ->. split.
    + rewrite Hrun, Image_save_eq. unfold image_name at 1.
      rewrite Hjpg. reflexivity.
    + apply lookup_insert_eq.
Qed.

(** C7.  Compositing a fully transparent tile onto an existing tile leaves
    the image in the file as it was: the file then holds the encoding of the
    very image it held before (for every existing image, opaque ones
    included), so that with a lossless encoding it decodes to the original
    pixel for pixel. *)
Theorem transparent_tile_is_noop s row ext old im1 im2 b :
  out_format s = Some ext ->
  dirs_free s row ->
  nodes s !! tile_path s row ext = Some (File old) ->
  image_open old = Some im1 ->
  image_open (tile_data row) = Some im2 ->
  fully_transparent im2 ->
  image_save (image_name row ext) im1 = Saved b ->
  lossless_at (image_name row ext) im1 ->
  exists s' b',
    place_tile row s = (Ok tt, s')
    /\ nodes s' !! tile_path s row ext = Some (File b')
    /\ image_open b' = Some im1.
Proof.
  intros Hext Hfree Hold H1 H2 Hclear Hsave Hlossless.
  exists (tile_written s row ext b), b.
  rewrite (place_tile_eq s row ext Hext Hfree), Hold, H1, H2.
  rewrite (paste_transparent im1 im2 Hclear), Image_save_eq, Hsave.
  split; [reflexivity|]. split.
  - apply lookup_insert_eq.
  - apply Hlossless. assumption.
Qed.

(** A half-transparent pixel pasted onto itself under its own alpha. *)
Example half_over_itself :
  paste [[Sample.half]] [[Sample.half]] = [[Sample.half]].
Proof. reflexivity. Qed.


End compositor.

(* ===================================================================== *)
(** ** Errors while compositing                                           *)
(* ===================================================================== *)

Section fatal_errors.

Context {lib : ImageLib}.

(** The row loop stops at the first tile whose placing raises. *)
Lemma tile_loop_raise l pre : forall i s s3 row post e sf,
  tile_loop l i pre s = (Ok tt, s3) ->
  place_tile row s3 = (Raise e, sf) ->
  tile_loop l i (pre ++ row :: post) s = (Raise e, sf).
Proof.
  induction pre as [|r pre IH]; simpl; intros i s s3 row post e sf Hpre Hrow.
  - inversion Hpre; subst. unfold tile_step.
    apply bind_raise. apply bind_raise. assumption.
  - unfold bind at 1. unfold bind at 1 in Hpre.
    destruct (tile_step l i r s) as [[[]|e'] s']; [|discriminate].
    eapply IH; eassumption.
Qed.

(** A failing decode or encode makes [place_tile] raise. *)
Lemma place_tile_codec_failure s row ext old :
  out_format s = Some ext ->
  dirs_free s row ->
  nodes s !! tile_path s row ext = Some (File old) ->
  codec_failure old (tile_data row) (image_name row ext) ->
  exists e sf, (e = ImageOpenError \/ e = ImageSaveError)
               /\ place_tile row s = (Raise e, sf).
Proof.
  intros Hext Hfree Hold Hfail.
  rewrite (place_tile_eq s row ext Hext Hfree), Hold.
  destruct Hfail as [H1 | [H2 | (im1 & im2 & r & H1 & H2 & Hs)]].
  - rewrite H1. eauto.
  - rewrite H2. destruct (image_open old); eauto.
  - rewrite H1, H2, Image_save_eq, Hs. destruct r; eauto.
Qed.

(** C8.  A decode or encode failure while a tile is composited ends the
    run: with the earlier archives exported and the earlier rows of this
    archive placed, the whole program stops with that error, in the state
    in which the failing statement left it, whatever rows and archives were
    still to come. *)
Theorem composite_error_is_fatal env s0 s done f rest l pre row post
    s1 s2 s3 ext old :
  prepare env s0 = (Ok tt, s) ->
  files_exported s = done ++ f :: rest ->
  for_each done (export_file env) s = (Ok tt, s1) ->
  open_archive env f s1 = (Ok (l, pre ++ row :: post), s2) ->
  tile_loop l 0 pre s2 = (Ok tt, s3) ->
  out_format s3 = Some ext ->
  dirs_free s3 row ->
  nodes s3 !! tile_path s3 row ext = Some (File old) ->
  codec_failure old (tile_data row) (image_name row ext) ->
  exists e sf,
    (e = ImageOpenError \/ e = ImageSaveError)
    /\ place_tile row s3 = (Raise e, sf)
    /\ main env s0 = (Raise e, sf).
Proof.
  intros Hprep Hfe Hdone Hopen Hpre Hext Hfree Hold Hfail.
  destruct (place_tile_codec_failure s3 row ext old Hext Hfree Hold Hfail)
    as (e & sf & He & Hrow).
  exists e, sf. split; [exact He|]. split; [exact Hrow|].
  unfold main. rewrite (bind_ok _ _ _ _ _ Hprep).
  unfold extract. unfold bind at 1. unfold gets. rewrite Hfe.
  apply (for_each_raise _ done f rest s s1 e sf Hdone).
  unfold export_file. rewrite (bind_ok _ _ _ _ _ Hopen).
  apply bind_raise. cbn [fst snd].
  apply (tile_loop_raise l pre 0 s2 s3 row post e sf Hpre Hrow).
Qed.

End fatal_errors.


(* ===================================================================== *)
(** ** The zoom filter                                                    *)
(* ===================================================================== *)

Section zoom_filter.

Lemma filter_all {A} (P : A -> Prop) `{forall x, Decision (P x)} (l : list A) :
  (forall x, P x) -> filter P l = l.
Proof.
  intros HP. induction l as [|x l IH]; [reflexivity|].
  rewrite filter_cons_True by apply HP. rewrite IH. reflexivity.
Qed.

(** The rows the dispatch of lines 279-286 selects, for the bounds as given
    on the command line: every bound but [-1] filters. *)
Lemma select_rows_effective mn mx ts :
  select_rows (default (-1) mn) (default (-1) mx) ts
  = filter (in_zoom_range (effective_bound mn) (effective_bound mx)) ts.
Proof.
  unfold select_rows, effective_bound.
  destruct mn as [lo|], mx as [hi|]; cbv [from_option id];
    repeat case_bool_decide; cbn [andb negb]; try congruence;
    try (symmetry; apply filter_all; intros t; unfold in_zoom_range; tauto);
    apply list_filter_iff; intros t; unfold in_zoom_range; lia.
Qed.

(** C3, as the code has it.  For a zoom filter whose maximum is not given
    as [-1], the filtered query yields exactly the archive's tiles whose
    zoom level is inside the inclusive range, in the archive's order; a
    bound that is left out does not constrain its side, and with both left
    out every tile is yielded.  (A minimum given as [-1] is dropped too, but
    no zoom level is below it.) *)
Theorem zoom_filter_selects_range cl db ts :
  opt_max_zoom cl <> Some (-1) ->
  tiles db = Some ts ->
  select_tiles (min_zoom (parse_args cl)) (max_zoom (parse_args cl)) db
  = Ok (filter (in_zoom_range (opt_min_zoom cl) (opt_max_zoom cl)) ts).
Proof.
  intros Hmax Hts. unfold select_tiles. rewrite Hts. f_equal.
  cbn [parse_args min_zoom max_zoom]. rewrite select_rows_effective.
  apply list_filter_iff. intros t.
  pose proof (N2Z.is_nonneg (zoom_level t)) as Hz.
  unfold effective_bound, in_zoom_range.
  destruct (opt_min_zoom cl) as [lo|], (opt_max_zoom cl) as [hi|];
    repeat case_bool_decide; subst; try congruence; lia.
Qed.

(** C3, as the specification states it, fails on a maximum zoom given as
    [-1]: no tile has a zoom level of at most -1, yet the query yields the
    tile of zoom level 0. *)
Lemma zoom_filter_max_minus_one :
  let cl := with_max_zoom (Some (-1)) Sample.no_options in
  let t := Sample.tile_of 0 0 0 Sample.solid in
  select_tiles (min_zoom (parse_args cl)) (max_zoom (parse_args cl))
               (mkDatabase Sample.png_meta (Some [t]))
  <> Ok (filter (in_zoom_range (opt_min_zoom cl) (opt_max_zoom cl)) [t]).
Proof.
  vm_compute. discriminate.
Qed.

(** C10.  A minimum or maximum zoom given as [-1] is the same as none
    given: the parsed arguments are equal, hence so is every run; and the
    query never treats [-1] as a bound, it filters by the effective bounds,
    among which [-1] does not occur. *)
Theorem minus_one_is_unset (cl : command_line) :
  parse_args (with_min_zoom (Some (-1)) cl) = parse_args (with_min_zoom None cl)
  /\ parse_args (with_max_zoom (Some (-1)) cl) = parse_args (with_max_zoom None cl)
  /\ (forall (lib : ImageLib) files dbs tty answer s,
        main (mkEnvironment (parse_args (with_min_zoom (Some (-1)) cl))
                            files dbs tty answer) s
        = main (mkEnvironment (parse_args (with_min_zoom None cl))
                              files dbs tty answer) s
        /\ main (mkEnvironment (parse_args (with_max_zoom (Some (-1)) cl))
                               files dbs tty answer) s
           = main (mkEnvironment (parse_args (with_max_zoom None cl))
                                 files dbs tty answer) s)
  /\ (forall ts,
        select_rows (min_zoom (parse_args cl)) (max_zoom (parse_args cl)) ts
        = filter (in_zoom_range (effective_bound (opt_min_zoom cl))
                                (effective_bound (opt_max_zoom cl))) ts)
  /\ (forall given, effective_bound given <> Some (-1)).
Proof.
  split; [reflexivity|]. split; [reflexivity|]. split; [|split].
  - intros. split; reflexivity.
  - intros ts. apply select_rows_effective.
  - intros [z|]; unfold effective_bound; [|discriminate].
    case_bool_decide; congruence.
Qed.

End zoom_filter.

(* ===================================================================== *)
(** ** Archive validation and the export set                              *)
(* ===================================================================== *)

Section validation.

Lemma fetch_format_no_row db rows :
  metadata db = Some rows ->
  (forall r, r ∈ rows -> r.1 <> "format"%string) ->
  fetch_format db = Ok None.
Proof.
  intros Hm Hrows. unfold fetch_format. rewrite Hm.
  replace (filter (fun r : string * sqlval => r.1 = "format"%string) rows)
    with (@nil (string * sqlval)); [reflexivity|].
  clear Hm. induction rows as [|r rows IH]; [reflexivity|].
  rewrite filter_cons_False by (apply Hrows; left).
  apply IH. intros r' Hr'. apply Hrows. right. assumption.
Qed.

(** An archive file of the chosen extension is noted and inspected inside
    the [try]. *)
Lemma validate_file_matched env f s :
  (splitext f).2 = extension (args env) ->
  validate_file env f s
  = try_except_OperationalError
      (inspect_archive env f) (modify (add_message OperationalFailure))
      (add_to_parse (resolve (cwd s) (input_dir (args env)) ++ [f]) f s).
Proof.
  intros Hext. unfold validate_file.
  rewrite bool_decide_eq_true_2 by assumption. reflexivity.
Qed.

(** A file of another extension is passed over. *)
Lemma validate_file_other env f s :
  (splitext f).2 <> extension (args env) ->
  validate_file env f s = (Ok tt, s).
Proof.
  intros Hext. unfold validate_file.
  rewrite bool_decide_eq_false_2 by assumption. reflexivity.
Qed.

(** The inspection of an archive whose format row is there, case by case. *)
Lemma inspect_archive_eq env f s db v :
  archives env !! (resolve (cwd s) (input_dir (args env)) ++ [f]) = Some db ->
  fetch_format db = Ok (Some v) ->
  inspect_archive env f s =
  if supported_format v then
    match tiles db with
    | Some ts =>
        (Ok tt, add_message (Summary (Z.of_nat (length ts))
                                     (distinct (zoom_level <$> ts)))
                            (add_exported f s))
    | None => (Raise OperationalError, add_exported f s)
    end
  else if truthy v then (Ok tt, add_message (UnsupportedFormat v) s)
  else (Ok tt, add_message MissingFormatMetadata s).
Proof.
  intros Hdb Hfmt. unfold inspect_archive, bind, connect, gets, lift.
  rewrite Hdb. cbn [default from_option id]. rewrite Hfmt.
  cbn [subscript0 ret].
  destruct (supported_format v).
  - unfold modify, count_tiles, distinct_zoom_levels.
    destruct (tiles db) as [ts|]; reflexivity.
  - destruct (truthy v); reflexivity.
Qed.

(** The part of C6 that holds: an archive whose format value is not one of
    the three supported ones gets its diagnostic, stays out of the export
    set, and the loop goes on. *)
Lemma unsupported_format_is_excluded env f s db v :
  (splitext f).2 = extension (args env) ->
  archives env !! (resolve (cwd s) (input_dir (args env)) ++ [f]) = Some db ->
  fetch_format db = Ok (Some v) ->
  truthy v = true ->
  supported_format v = false ->
  exists s', validate_file env f s = (Ok tt, s')
    /\ parse_message s' = parse_message s ++ [UnsupportedFormat v]
    /\ files_exported s' = files_exported s.
Proof.
  intros Hext Hdb Hfmt Htruthy Hsup. eexists.
  rewrite (validate_file_matched env f s Hext).
  unfold try_except_OperationalError.
  rewrite (inspect_archive_eq env f
             (add_to_parse (resolve (cwd s) (input_dir (args env)) ++ [f]) f s)
             db v Hdb Hfmt), Hsup, Htruthy.
  split; [reflexivity|]. split; reflexivity.
Qed.

(** The same for an archive whose [metadata] relation cannot be queried. *)
Lemma metadata_query_failure_is_excluded env f s db :
  (splitext f).2 = extension (args env) ->
  archives env !! (resolve (cwd s) (input_dir (args env)) ++ [f]) = Some db ->
  metadata db = None ->
  exists s', validate_file env f s = (Ok tt, s')
    /\ parse_message s' = parse_message s ++ [OperationalFailure]
    /\ files_exported s' = files_exported s.
Proof.
  intros Hext Hdb Hmeta. eexists.
  rewrite (validate_file_matched env f s Hext).
  unfold try_except_OperationalError, inspect_archive, bind, connect, gets,
    lift, fetch_format.
  cbn [add_to_parse cwd]. rewrite Hdb. cbn [default from_option id].
  rewrite Hmeta. split; [reflexivity|]. split; reflexivity.
Qed.

(** And an empty export set ends the program with exit code 1 before the
    output tree is touched. *)
Lemma empty_export_set_exits (lib : ImageLib) env s0 s tty :
  validate env s0 = (Ok tt, s) ->
  stty_size env = Some tty ->
  files_exported s = [] ->
  main env s0 = (Raise (SystemExit 1), s).
Proof.
  intros Hval Htty Hfe. unfold main, prepare.
  apply bind_raise. rewrite (bind_ok _ _ _ _ _ Hval).
  unfold read_stty. rewrite Htty. unfold bind at 1. cbn [ret].
  apply bind_raise. unfold check_export_set, bind, gets. rewrite Hfe.
  reflexivity.
Qed.

(** C4 on the code.  An archive whose [metadata] relation has no row named
    [format]: [fetchone()] gives [None], the subscript raises [TypeError],
    which the [except] clause does not catch.  The program stops there: no
    diagnostic is recorded for the archive and the files after it are not
    looked at. *)
Theorem missing_format_row_crashes (lib : ImageLib) env done f rest s0 s
    rows tl :
  onlyfiles env = done ++ f :: rest ->
  for_each done (validate_file env) s0 = (Ok tt, s) ->
  (splitext f).2 = extension (args env) ->
  archives env !! (resolve (cwd s) (input_dir (args env)) ++ [f])
    = Some (mkDatabase (Some rows) tl) ->
  (forall r, r ∈ rows -> r.1 <> "format"%string) ->
  main env s0
  = (Raise TypeError,
     add_to_parse (resolve (cwd s) (input_dir (args env)) ++ [f]) f s).
Proof.
  intros Hfiles Hdone Hext Hdb Hrows. unfold main, prepare.
  apply bind_raise. apply bind_raise. unfold validate. rewrite Hfiles.
  apply (for_each_raise _ done f rest s0 s _ _ Hdone).
  rewrite (validate_file_matched env f s Hext).
  unfold try_except_OperationalError, inspect_archive, bind, connect, gets,
    lift.
  cbn [add_to_parse cwd]. rewrite Hdb. cbn [default from_option id].
  rewrite (fetch_format_no_row (mkDatabase (Some rows) tl) rows eq_refl Hrows).
  reflexivity.
Qed.

(** C6 on the code.  An archive of a supported format whose [tiles]
    relation cannot be queried: it is appended to [files_exported] before
    the queries run, so the handler records the diagnostic for an archive
    that stays in the export set. *)
Theorem failed_tile_query_stays_exported env f s meta v :
  (splitext f).2 = extension (args env) ->
  archives env !! (resolve (cwd s) (input_dir (args env)) ++ [f])
    = Some (mkDatabase (Some meta) None) ->
  fetch_format (mkDatabase (Some meta) None) = Ok (Some v) ->
  supported_format v = true ->
  exists s', validate_file env f s = (Ok tt, s')
    /\ parse_message s' = parse_message s ++ [OperationalFailure]
    /\ files_exported s' = files_exported s ++ [f].
Proof.
  intros Hext Hdb Hfmt Hsup. eexists.
  rewrite (validate_file_matched env f s Hext).
  unfold try_except_OperationalError.
  rewrite (inspect_archive_eq env f
             (add_to_parse (resolve (cwd s) (input_dir (args env)) ++ [f]) f s)
             _ v Hdb Hfmt), Hsup.
  cbn [tiles]. split; [reflexivity|]. split; reflexivity.
Qed.

(** C5 on the code.  Validation lets ['jpeg'] through, the extraction
    driver assigns an extension for ['png'] and ['jpg'] only: on ['jpeg']
    [out_format] stays as it was.  With a jpeg archive first, the name is
    unbound when the first tile is named and the run ends in [NameError];
    after a png archive, the jpeg archive's tiles are written as [.png]. *)
Theorem jpeg_extension_unassigned :
  supported_format (SText "jpeg") = true
  /\ (forall s, determine_out_format (Some (SText "jpeg")) s = (Ok tt, s))
  /\ (main (lib := RawCodec.raw)
        (Sample.one_archive "a.mbtiles"
           (mkDatabase Sample.jpeg_meta
                       (Some [Sample.tile_of 1 0 0 Sample.solid])))
        Sample.start).1 = Raise NameError
  /\ (let run :=
        main (lib := RawCodec.raw)
          (Sample.two_archives
             "a.mbtiles" (mkDatabase Sample.png_meta
                            (Some [Sample.tile_of 2 1 0 Sample.solid]))
             "b.mbtiles" (mkDatabase Sample.jpeg_meta
                            (Some [Sample.tile_of 1 0 0 Sample.half])))
          Sample.start in
      run.1 = Ok tt
      /\ nodes run.2 !! ["home"; "tiles"; "1"; "0"; "1.png"]%string
         = Some (File (tile_data (Sample.tile_of 1 0 0 Sample.half)))).
Proof.
  split; [reflexivity|]. split; [reflexivity|]. split.
  - vm_compute. reflexivity.
  - vm_compute. split; reflexivity.
Qed.

End validation.

(* ===================================================================== *)
(** ** Witnesses on the sample data                                       *)
(* ===================================================================== *)

Lemma tile_row_is_flipped_witness :
  exists content,
    nodes (place_tile (lib := RawCodec.raw) (Sample.tile_of 2 1 0 Sample.solid)
                      (Sample.in_output Sample.fresh_tree)).2
    !! ["home"; "tiles"; "2"; "1"; "3.png"]%string = Some (File content).
Proof.
  apply (@tile_row_is_flipped RawCodec.raw
           (Sample.in_output Sample.fresh_tree)
           (Sample.tile_of 2 1 0 Sample.solid) ".png"%string
           (place_tile (lib := RawCodec.raw) (Sample.tile_of 2 1 0 Sample.solid)
                       (Sample.in_output Sample.fresh_tree)).2).
  - reflexivity.
  - vm_compute. reflexivity.
Defined.

(** The sample tile of alpha 128 written to a free path, and composited
    onto the opaque sample tile. *)
Lemma write_or_composite_spec_sample :
  (exists s', place_tile (lib := RawCodec.raw) (Sample.tile_of 2 1 0 Sample.half)
                         (Sample.in_output Sample.fresh_tree) = (Ok tt, s')
     /\ nodes s' !! ["home"; "tiles"; "2"; "1"; "3.png"]%string
        = Some (File (RawCodec.encode [[Sample.half]])))
  /\ (exists s', place_tile (lib := RawCodec.raw) (Sample.tile_of 2 1 0 Sample.half)
                            (Sample.in_output (Sample.tree_with Sample.solid))
                 = (Ok tt, s')
     /\ nodes s' !! ["home"; "tiles"; "2"; "1"; "3.png"]%string
        = Some (File (RawCodec.encode [[mkPixel x69 x3c x28 xbf]]))).
Proof.
  split.
  - destruct (@write_or_composite_spec RawCodec.raw
                (Sample.in_output Sample.fresh_tree)
                (Sample.tile_of 2 1 0 Sample.half) ".png"%string)
      as (_ & Hfresh & _).
    + reflexivity.
    + split; intros b; vm_compute; discriminate.
    + destruct Hfresh as (s' & Hrun & _ & Hnodes); [reflexivity|].
      exists s'. split; [exact Hrun|]. rewrite Hnodes. apply lookup_insert_eq.
  - destruct (@write_or_composite_spec RawCodec.raw
                (Sample.in_output (Sample.tree_with Sample.solid))
                (Sample.tile_of 2 1 0 Sample.half) ".png"%string)
      as (_ & _ & Hover).
    + reflexivity.
    + split; intros b; vm_compute; discriminate.
    + destruct (Hover (RawCodec.encode [[Sample.solid]])
                      [[Sample.solid]] [[Sample.half]]
                      (RawCodec.encode
                         [[blend_pixel Sample.half Sample.solid Sample.half]]))
        as (s' & Hrun & _ & Hnodes); try reflexivity.
      exists s'. split; [exact Hrun|]. rewrite Hnodes. apply lookup_insert_eq.
Defined.

Lemma transparent_tile_is_noop_witness :
  exists s' b',
    place_tile (lib := RawCodec.raw) (Sample.tile_of 2 1 0 Sample.clear)
               (Sample.in_output (Sample.tree_with Sample.solid)) = (Ok tt, s')
    /\ nodes s' !! ["home"; "tiles"; "2"; "1"; "3.png"]%string = Some (File b')
    /\ RawCodec.decode b' = Some [[Sample.solid]].
Proof.
  apply (@transparent_tile_is_noop RawCodec.raw
           (Sample.in_output (Sample.tree_with Sample.solid))
           (Sample.tile_of 2 1 0 Sample.clear) ".png"%string
           (RawCodec.encode [[Sample.solid]])
           [[Sample.solid]] [[Sample.clear]]
           (RawCodec.encode [[Sample.solid]])).
  - reflexivity.
  - split; intros b; vm_compute; discriminate.
  - reflexivity.
  - reflexivity.
  - reflexivity.
  - repeat constructor.
  - reflexivity.
  - intros b Hb. vm_compute in Hb. inversion Hb; subst. reflexivity.
Defined.

Lemma jpg_composite_raises_witness :
  place_tile (lib := RawCodec.raw) (Sample.tile_of 2 1 0 Sample.half)
             (Sample.in_output (Sample.tree_with Sample.solid))
  = (Ok tt,
     tile_written (Sample.in_output (Sample.tree_with Sample.solid))
                  (Sample.tile_of 2 1 0 Sample.half) ".png"
                  (RawCodec.encode [[mkPixel x69 x3c x28 xbf]]))
  /\ exists sf,
       place_tile (lib := RawCodec.raw) (Sample.tile_of 2 1 0 Sample.half)
                  (Sample.in_jpg_output (Sample.jpg_tree_with Sample.solid))
       = (Raise ImageSaveError, sf)
       /\ nodes sf !! ["home"; "tiles"; "2"; "1"; "3.jpg"]%string
          = Some (File []).
Proof.
  split.
  - destruct (@jpg_composite_raises RawCodec.raw
                (Sample.in_output (Sample.tree_with Sample.solid))
                (Sample.tile_of 2 1 0 Sample.half) ".png"%string
                (RawCodec.encode [[Sample.solid]])
                [[Sample.solid]] [[Sample.half]])
      as [Hrun _].
    + reflexivity.
    + split; intros b; vm_compute; discriminate.
    + reflexivity.
    + reflexivity.
    + reflexivity.
    + rewrite Hrun. reflexivity.
  - destruct (@jpg_composite_raises RawCodec.raw
                (Sample.in_jpg_output (Sample.jpg_tree_with Sample.solid))
                (Sample.tile_of 2 1 0 Sample.half) ".jpg"%string
                (RawCodec.encode [[Sample.solid]])
                [[Sample.solid]] [[Sample.half]])
      as [_ Hjpg].
    + reflexivity.
    + split; intros b; vm_compute; discriminate.
    + reflexivity.
    + reflexivity.
    + reflexivity.
    + destruct (Hjpg raw_refuses_rgba_jpeg eq_refl) as [Hrun Hfile].
      eexists. split; [exact Hrun|exact Hfile].
Defined.


Lemma composite_error_is_fatal_witness :
  let db := mkDatabase Sample.png_meta
              (Some [Sample.tile_of 2 1 0 Sample.solid;
                     Sample.broken_tile 2 1 0;
                     Sample.tile_of 2 1 1 Sample.half]) in
  exists e sf,
    (e = ImageOpenError \/ e = ImageSaveError)
    /\ main (lib := RawCodec.raw) (Sample.one_archive "a.mbtiles" db)
            Sample.start = (Raise e, sf)
    /\ nodes sf !! ["home"; "tiles"; "2"; "1"; "2.png"]%string = None.
Proof.
  intros db.
  pose (env := Sample.one_archive "a.mbtiles" db).
  pose (s := (prepare env Sample.start).2).
  pose (s2 := (open_archive env "a.mbtiles" s).2).
  pose (s3 := (tile_loop (lib := RawCodec.raw) 3 0
                 [Sample.tile_of 2 1 0 Sample.solid] s2).2).
  destruct (@composite_error_is_fatal RawCodec.raw env Sample.start s
              [] "a.mbtiles"%string [] 3
              [Sample.tile_of 2 1 0 Sample.solid]
              (Sample.broken_tile 2 1 0)
              [Sample.tile_of 2 1 1 Sample.half]
              s s2 s3 ".png"%string
              (RawCodec.encode [[Sample.solid]]))
    as (e & sf & He & Hrow & Hmain).
  - vm_compute. reflexivity.
  - vm_compute. reflexivity.
  - reflexivity.
  - vm_compute. reflexivity.
  - vm_compute. reflexivity.
  - vm_compute. reflexivity.
  - split; intros b; vm_compute; discriminate.
  - vm_compute. reflexivity.
  - right. left. reflexivity.
  - exists e, sf. split; [exact He|]. split; [exact Hmain|].
    vm_compute in Hrow. inversion Hrow. vm_compute. reflexivity.
Defined.

Lemma zoom_filter_selects_range_witness :
  select_tiles 1 2
    (mkDatabase Sample.png_meta
       (Some [Sample.tile_of 0 0 0 Sample.solid; Sample.tile_of 1 0 0 Sample.solid;
              Sample.tile_of 2 0 0 Sample.solid; Sample.tile_of 3 0 0 Sample.solid]))
  = Ok [Sample.tile_of 1 0 0 Sample.solid; Sample.tile_of 2 0 0 Sample.solid].
Proof.
  pose proof (zoom_filter_selects_range
                (with_min_zoom (Some 1) (with_max_zoom (Some 2) Sample.no_options))
                (mkDatabase Sample.png_meta
                   (Some [Sample.tile_of 0 0 0 Sample.solid;
                          Sample.tile_of 1 0 0 Sample.solid;
                          Sample.tile_of 2 0 0 Sample.solid;
                          Sample.tile_of 3 0 0 Sample.solid])) _
                ltac:(discriminate) eq_refl) as H.
  vm_compute in H. vm_compute. exact H.
Defined.

Lemma missing_format_row_crashes_witness :
  let env := Sample.one_archive "a.mbtiles"
               (mkDatabase Sample.bare_meta
                           (Some [Sample.tile_of 1 0 0 Sample.solid])) in
  exists sf,
    main (lib := RawCodec.raw) env Sample.start = (Raise TypeError, sf)
    /\ parse_message sf = [] /\ files_exported sf = [].
Proof.
  intros env. eexists. split.
  - apply (@missing_format_row_crashes RawCodec.raw env
             [] "a.mbtiles"%string ["b.txt"%string] Sample.start Sample.start
             [("name"%string, SText "sample")]
             (Some [Sample.tile_of 1 0 0 Sample.solid])).
    + reflexivity.
    + reflexivity.
    + reflexivity.
    + reflexivity.
    + intros r Hr. apply list_elem_of_singleton in Hr. subst r. discriminate.
  - split; reflexivity.
Defined.

Lemma failed_tile_query_stays_exported_witness :
  let env := Sample.one_archive "a.mbtiles" (mkDatabase Sample.png_meta None) in
  (exists s', validate_file env "a.mbtiles" Sample.start = (Ok tt, s')
     /\ parse_message s' = [OperationalFailure]
     /\ files_exported s' = ["a.mbtiles"%string])
  /\ (main (lib := RawCodec.raw) env Sample.start).1 = Raise OperationalError.
Proof.
  intros env. split.
  - apply (failed_tile_query_stays_exported env "a.mbtiles" Sample.start
             [("name"%string, SText "sample"); ("format"%string, SText "png")]
             (SText "png")); reflexivity.
  - vm_compute. reflexivity.
Defined.

(** The whole program on a jpg archive with two rows at the same
    coordinates: the second row finds the first one's file, the save of the
    composite raises, and the run ends with the tile's file empty. *)
Example jpg_archive_run_stops :
  let env := Sample.one_archive "a.mbtiles"
               (mkDatabase Sample.jpg_meta
                           (Some [Sample.tile_of 2 1 0 Sample.solid;
                                  Sample.tile_of 2 1 0 Sample.half;
                                  Sample.tile_of 2 1 1 Sample.solid])) in
  let run := main (lib := RawCodec.raw) env Sample.start in
  run.1 = Raise ImageSaveError
  /\ nodes run.2 !! ["home"; "tiles"; "2"; "1"; "3.jpg"]%string
     = Some (File [])
  /\ nodes run.2 !! ["home"; "tiles"; "2"; "1"; "2.jpg"]%string = None.
Proof.
  vm_compute. split; [reflexivity|]. split; reflexivity.
Qed.

(** The whole program run twice over the same output tree, on an archive
    with one half-transparent tile: the second run rewrites the tile's file
    and it still decodes to the tile. *)
Example whole_run_twice :
  let env := Sample.one_archive "a.mbtiles"
               (mkDatabase Sample.png_meta
                           (Some [Sample.tile_of 2 1 0 Sample.half])) in
  let once := main (lib := RawCodec.raw) env Sample.start in
  let twice := main (lib := RawCodec.raw) env
                    (initial_state Sample.home (nodes once.2)) in
  once.1 = Ok tt /\ twice.1 = Ok tt
  /\ (exists b,
        nodes twice.2 !! ["home"; "tiles"; "2"; "1"; "3.png"]%string
          = Some (File b)
        /\ RawCodec.decode b = Some [[Sample.half]]).
Proof.
  vm_compute. split; [reflexivity|]. split; [reflexivity|].
  eexists. split; reflexivity.
Qed.

(* ===================================================================== *)
(** ** Further properties: directories and the working directory          *)
(* ===================================================================== *)

Section directories.

Context {lib : ImageLib}.

(** X1.  [safeMakeDir] (permissions are not modelled) goes through; it
    leaves a file or directory of that name as it is and makes a directory
    otherwise; it changes no other path; a second call changes nothing. *)
Theorem safeMakeDir_idempotent d s :
  let s1 := (safeMakeDir d s).2 in
  (safeMakeDir d s).1 = Ok tt
  /\ (is_Some (nodes s !! (cwd s ++ [d])) -> s1 = s)
  /\ (nodes s !! (cwd s ++ [d]) = None -> nodes s1 !! (cwd s ++ [d]) = Some Dir)
  /\ (forall p, p <> cwd s ++ [d] -> nodes s1 !! p = nodes s !! p)
  /\ safeMakeDir d s1 = (Ok tt, s1).
Proof.
  unfold safeMakeDir, bind, path_exists, gets, makedirs, modify, ret.
  destruct (nodes s !! (cwd s ++ [d])) as [n|] eqn:E.
  - rewrite bool_decide_eq_true_2 by eauto. cbn [fst snd].
    rewrite E. rewrite bool_decide_eq_true_2 by eauto.
    repeat split; try reflexivity. intros H; discriminate.
  - rewrite bool_decide_eq_false_2 by (intros [? ?]; discriminate).
    cbn [fst snd set_nodes cwd nodes].
    rewrite lookup_insert_eq. rewrite bool_decide_eq_true_2 by eauto.
    repeat split; try reflexivity.
    + intros [? ?]; discriminate.
    + intros p Hp. rewrite lookup_insert_ne by congruence. reflexivity.
Qed.

(** X2.  A regular file named like a tile's zoom level in the output
    directory stops the tile: [os.path.exists] sees it, no directory is
    made, [os.chdir] raises [NotADirectoryError] and nothing is written. *)
Theorem zoom_name_taken_by_file row s b :
  nodes s !! (cwd s ++ [str (Z.of_N (zoom_level row))]) = Some (File b) ->
  place_tile row s = (Raise NotADirectoryError, s).
Proof.
  intros H. unfold place_tile. apply bind_raise.
  rewrite setDir_eq, H. reflexivity.
Qed.

(** [place_tile] while [out_format] is unbound. *)
Lemma place_tile_unbound s row :
  out_format s = None ->
  dirs_free s row ->
  place_tile row s = (Raise NameError, in_tile_dir s row).
Proof.
  intros Hext Hfree. unfold place_tile.
  pose proof (enter_tile_dir s row Hfree) as Hdir. unfold bind in *.
  destruct (setDir (str (Z.of_N (zoom_level row))) s) as [[[]|e1] s1];
    [|discriminate].
  rewrite Hdir. unfold read_out_format.
  change (out_format (in_tile_dir s row)) with (out_format s). rewrite Hext.
  reflexivity.
Qed.

(** A tile that was placed: the extension was assigned, the directories
    were free, and the state is that of the written file. *)
Lemma place_tile_ok_inv s row s' :
  place_tile row s = (Ok tt, s') ->
  exists ext content,
    out_format s = Some ext /\ dirs_free s row
    /\ s' = tile_written s row ext content.
Proof.
  intros Hrun.
  pose proof (place_tile_ok_dirs_free s row s' Hrun) as Hfree.
  destruct (out_format s) as [ext|] eqn:Hext.
  - exists ext. rewrite (place_tile_eq s row ext Hext Hfree) in Hrun.
    destruct (nodes s !! tile_path s row ext) as [[|old]|].
    + discriminate.
    + destruct (image_open old) as [im1|]; [|discriminate].
      destruct (image_open (tile_data row)) as [im2|]; [|discriminate].
      rewrite Image_save_eq in Hrun.
      destruct (image_save _ _) as [b|[b|]]; try discriminate.
      exists b. split; [reflexivity|]. split; [exact Hfree|]. congruence.
    + exists (tile_data row). split; [reflexivity|].
      split; [exact Hfree|]. congruence.
  - rewrite (place_tile_unbound s row Hext Hfree) in Hrun. discriminate.
Qed.

Lemma removelast_tile_dir s row :
  removelast (removelast (tile_dir s row)) = cwd s.
Proof.
  unfold tile_dir.
  change [str (Z.of_N (zoom_level row)); str (tile_column row)]
    with ([str (Z.of_N (zoom_level row))] ++ [str (tile_column row)]).
  rewrite app_assoc, !removelast_last. reflexivity.
Qed.

Lemma tile_step_ok_cwd l i row s s' :
  tile_step l i row s = (Ok tt, s') -> cwd s' = cwd s.
Proof.
  unfold tile_step, bind. intros H.
  destruct (place_tile row s) as [[[]|e] s1] eqn:Hp; [|discriminate].
  destruct (place_tile_ok_inv s row s1 Hp) as (ext & content & _ & _ & ->).
  destruct (bool_decide (i mod 5 = 0)).
  - unfold printProgressBar in H. destruct (bool_decide (l = 0)).
    + discriminate.
    + inversion H. cbn [cwd set_cwd chdir_up modify snd tile_written
                        set_nodes in_tile_dir].
      apply removelast_tile_dir.
  - inversion H. cbn [cwd set_cwd chdir_up modify snd tile_written
                      set_nodes in_tile_dir].
    apply removelast_tile_dir.
Qed.

(** The row loop, when it goes through, ends in the directory it started in. *)
Lemma tile_loop_ok_cwd l rows : forall i s s',
  tile_loop l i rows s = (Ok tt, s') -> cwd s' = cwd s.
Proof.
  induction rows as [|row rows IH]; simpl; intros i s s' H.
  - inversion H. reflexivity.
  - unfold bind in H.
    destruct (tile_step l i row s) as [[[]|e] s1] eqn:Hs; [|discriminate].
    rewrite (IH _ _ _ H). apply (tile_step_ok_cwd _ _ _ _ _ Hs).
Qed.

(** X3.  The row loop comes back to where it started: after the rows of
    an archive have been placed, the working directory is the output
    directory again. *)
Theorem tile_loop_restores_cwd l rows i s s' :
  tile_loop l i rows s = (Ok tt, s') -> cwd s' = cwd s.
Proof.
  intros H. apply (tile_loop_ok_cwd l rows i s s'). exact H.
Qed.

(** X4.  Exporting an archive leaves the process in the parent of the
    output directory, wherever it started: the loop enters the output
    directory by its name and leaves it by [os.chdir('..')]. *)
Theorem export_file_leaves_in_parent env f s s' :
  export_file env f s = (Ok tt, s') ->
  cwd s' = removelast (resolve (cwd s) (dirname (args env))).
Proof.
  unfold export_file, bind at 1. intros H.
  destruct (open_archive env f s) as [[[l rows]|e] s1] eqn:Hopen;
    [|discriminate].
  cbn [fst snd] in H.
  assert (Hcwd : cwd s1 = resolve (cwd s) (dirname (args env))).
  { revert Hopen. unfold open_archive, bind, connect, gets, lift, ret.
    destruct (fetch_format _) as [fmt|e]; [|discriminate].
    assert (Hd : forall s0, cwd (determine_out_format fmt s0).2 = cwd s0
                            /\ (determine_out_format fmt s0).1 = Ok tt).
    { intros s0. unfold determine_out_format, modify, ret.
      destruct fmt as [v|]; [|split; reflexivity].
      destruct (eq_str v "png"); [split; reflexivity|].
      destruct (eq_str v "jpg"); split; reflexivity. }
    destruct (determine_out_format fmt s) as [r0 s0] eqn:Hdet.
    pose proof (Hd s) as [Hc Hr]. rewrite Hdet in Hc, Hr. cbn [fst snd] in *.
    subst r0.
    destruct (count_tiles _) as [l0|e]; [|discriminate].
    destruct (select_tiles _ _ _) as [rows0|e]; [|discriminate].
    unfold printProgressBar. destruct (bool_decide (l0 = 0)); [discriminate|].
    cbn [ret]. unfold chdir_path. rewrite Hc.
    destruct (nodes s0 !! resolve (cwd s) (dirname (args env))) as [[|b]|];
      try discriminate.
    intros Heq. inversion Heq. reflexivity. }
  unfold bind in H.
  destruct (tile_loop l 0 rows s1) as [[[]|e] s2] eqn:Hloop; [|discriminate].
  pose proof (tile_loop_ok_cwd _ _ _ _ _ Hloop) as Hc2.
  unfold chdir_up, modify in H. unfold printProgressBar in H.
  destruct (bool_decide (l = 0)); [discriminate|].
  inversion H. cbn [cwd set_cwd]. rewrite Hc2, Hcwd. reflexivity.
Qed.

End directories.

(* ===================================================================== *)
(** ** Further properties: what the script never touches                  *)
(* ===================================================================== *)

Section never_touched.

Context {lib : ImageLib}.

Lemma keeps_paths_refl s : keeps_paths s s.
Proof. intros p. split; auto. Qed.

Lemma keeps_paths_trans s1 s2 s3 :
  keeps_paths s1 s2 -> keeps_paths s2 s3 -> keeps_paths s1 s3.
Proof.
  intros H12 H23 p. destruct (H12 p) as [A1 B1], (H23 p) as [A2 B2].
  split; auto.
Qed.

Lemma keeps_paths_same_nodes s s' : nodes s' = nodes s -> keeps_paths s s'.
Proof. intros E p. rewrite E. split; auto. Qed.

(** Adding a node where there was none, or a directory where there was
    one, keeps the paths. *)
Lemma keeps_paths_insert s p n :
  (nodes s !! p = None \/ n = Dir \/ exists b, nodes s !! p = Some (File b)) ->
  keeps_paths s (set_nodes (<[p := n]> (nodes s)) s).
Proof.
  intros H q. cbn [nodes set_nodes].
  destruct (decide (p = q)) as [->|NE].
  - rewrite lookup_insert_eq. split; [eauto|].
    intros Hd. destruct H as [H|[->|[b H]]]; congruence.
  - rewrite lookup_insert_ne by assumption. split; auto.
Qed.

Lemma never_removes_bind {A B} (m : M A) (k : A -> M B) :
  never_removes m -> (forall a, never_removes (k a)) ->
  never_removes (bind m k).
Proof.
  intros Hm Hk s. unfold bind. specialize (Hm s).
  destruct (m s) as [[a|e] s1]; cbn [snd] in *.
  - eapply keeps_paths_trans; [exact Hm|apply Hk].
  - exact Hm.
Qed.

Lemma never_removes_same {A} (m : M A) :
  (forall s, nodes (m s).2 = nodes s) -> never_removes m.
Proof. intros H s. apply keeps_paths_same_nodes, H. Qed.

Lemma never_removes_for_each {A} (body : A -> M unit) xs :
  (forall x, never_removes (body x)) -> never_removes (for_each xs body).
Proof.
  intros Hb. induction xs as [|x xs IH]; simpl.
  - intros s. apply keeps_paths_refl.
  - apply never_removes_bind; auto.
Qed.

Lemma never_removes_setDir d : never_removes (setDir d).
Proof.
  intros s. rewrite setDir_eq.
  destruct (nodes s !! (cwd s ++ [d])) as [[|b]|] eqn:E; cbn [snd].
  - apply (keeps_paths_trans _ (set_nodes (<[cwd s ++ [d]:=Dir]> (nodes s)) s)).
    + apply keeps_paths_insert. auto.
    + apply keeps_paths_same_nodes. reflexivity.
  - apply keeps_paths_refl.
  - apply (keeps_paths_trans _ (set_nodes (<[cwd s ++ [d]:=Dir]> (nodes s)) s)).
    + apply keeps_paths_insert. auto.
    + apply keeps_paths_same_nodes. reflexivity.
Qed.

Lemma never_removes_write_or_composite name data :
  never_removes (write_or_composite name data).
Proof.
  intros s. unfold write_or_composite, bind, path_exists, gets,
    Image_open_file, Image_open_bytes, Image_save, write_file, modify, raise,
    ret.
  destruct (nodes s !! (cwd s ++ [name])) as [[|old]|] eqn:E.
  - rewrite bool_decide_eq_true_2 by eauto. cbv beta. rewrite E.
    apply keeps_paths_refl.
  - rewrite bool_decide_eq_true_2 by eauto. cbv beta. rewrite E.
    destruct (image_open old) as [im1|]; [|apply keeps_paths_refl].
    destruct (image_open data) as [im2|]; [|apply keeps_paths_refl].
    destruct (image_save name (paste im1 im2)) as [b|[b|]]; cbn [snd];
      try apply keeps_paths_refl;
      apply keeps_paths_insert; eauto.
  - rewrite bool_decide_eq_false_2 by (intros [? ?]; discriminate).
    cbn [snd]. apply keeps_paths_insert. auto.
Qed.

Lemma never_removes_printProgressBar i l : never_removes (printProgressBar i l).
Proof.
  apply never_removes_same. intros s. unfold printProgressBar.
  destruct (bool_decide (l = 0)); reflexivity.
Qed.

Lemma never_removes_place_tile row : never_removes (place_tile row).
Proof.
  unfold place_tile.
  apply never_removes_bind; [apply never_removes_setDir|]. intros _.
  apply never_removes_bind; [apply never_removes_setDir|]. intros _.
  apply never_removes_bind.
  - apply never_removes_same. intros s. unfold read_out_format.
    destruct (out_format s); reflexivity.
  - intros ext. apply never_removes_write_or_composite.
Qed.

Lemma never_removes_tile_loop l rows : forall i,
  never_removes (tile_loop l i rows).
Proof.
  induction rows as [|row rows IH]; intros i; simpl.
  - intros s. apply keeps_paths_refl.
  - apply never_removes_bind; [|intros _; apply IH].
    unfold tile_step.
    apply never_removes_bind; [apply never_removes_place_tile|]. intros _.
    apply never_removes_bind.
    { destruct (bool_decide (i mod 5 = 0));
        [apply never_removes_printProgressBar|].
      intros s. apply keeps_paths_refl. }
    intros _. apply never_removes_bind; [|intros _];
      apply never_removes_same; reflexivity.
Qed.

Lemma never_removes_export_file env f : never_removes (export_file env f).
Proof.
  unfold export_file. apply never_removes_bind.
  - unfold open_archive.
    apply never_removes_bind; [apply never_removes_same; reflexivity|].
    intros db.
    apply never_removes_bind; [apply never_removes_same; reflexivity|].
    intros fmt. apply never_removes_bind.
    { apply never_removes_same. intros s. unfold determine_out_format.
      destruct fmt as [v|]; [|reflexivity].
      destruct (eq_str v "png"); [reflexivity|].
      destruct (eq_str v "jpg"); reflexivity. }
    intros _.
    apply never_removes_bind; [apply never_removes_same; reflexivity|].
    intros l.
    apply never_removes_bind; [apply never_removes_same; reflexivity|].
    intros rows.
    apply never_removes_bind; [apply never_removes_printProgressBar|].
    intros _. apply never_removes_bind.
    { apply never_removes_same. intros s. unfold bind, gets, chdir_path.
      destruct (nodes s !! _) as [[|b]|]; reflexivity. }
    intros _. apply never_removes_same. reflexivity.
  - intros lr. apply never_removes_bind; [apply never_removes_tile_loop|].
    intros _. apply never_removes_bind.
    + apply never_removes_same. reflexivity.
    + intros _. apply never_removes_printProgressBar.
Qed.

Lemma leaves_files_bind {A B} (m : M A) (k : A -> M B) :
  leaves_files m -> (forall a, leaves_files (k a)) -> leaves_files (bind m k).
Proof.
  intros Hm Hk s. unfold bind. specialize (Hm s).
  destruct (m s) as [[a|e] s1]; cbn [snd] in *; [|exact Hm].
  destruct Hm as (C & N & O), (Hk a s1) as (C' & N' & O').
  repeat split; congruence.
Qed.

Lemma leaves_files_modify (f : state -> state) :
  (forall s, cwd (f s) = cwd s /\ nodes (f s) = nodes s
             /\ out_format (f s) = out_format s) ->
  leaves_files (modify f).
Proof. intros H s. apply H. Qed.

Lemma leaves_files_pure {A} (m : M A) :
  (forall s, (m s).2 = s) -> leaves_files m.
Proof. intros H s. rewrite H. repeat split. Qed.

Lemma leaves_files_inspect_archive env f : leaves_files (inspect_archive env f).
Proof.
  unfold inspect_archive.
  apply leaves_files_bind; [apply leaves_files_pure; reflexivity|]. intros db.
  apply leaves_files_bind; [apply leaves_files_pure; reflexivity|]. intros row.
  apply leaves_files_bind.
  { apply leaves_files_pure. intros s. destruct row; reflexivity. }
  intros v. destruct (supported_format v).
  - apply leaves_files_bind;
      [apply leaves_files_modify; intros s; repeat split|]. intros _.
    apply leaves_files_bind; [apply leaves_files_pure; reflexivity|]. intros l.
    apply leaves_files_bind; [apply leaves_files_pure; reflexivity|]. intros z.
    apply leaves_files_modify. intros s. repeat split.
  - destruct (truthy v); apply leaves_files_modify; intros s; repeat split.
Qed.

Lemma leaves_files_validate_file env f : leaves_files (validate_file env f).
Proof.
  unfold validate_file.
  destruct (bool_decide _); [|apply leaves_files_pure; reflexivity].
  apply leaves_files_bind.
  - apply leaves_files_bind; [apply leaves_files_pure; reflexivity|].
    intros wd. apply leaves_files_modify. intros s. repeat split.
  - intros _ s. unfold try_except_OperationalError.
    pose proof (leaves_files_inspect_archive env f s) as H.
    destruct (inspect_archive env f s) as [[[]|e] s1]; cbn [snd] in *;
      try exact H.
    destruct e; exact H.
Qed.

(** The validation loop leaves the files alone. *)
Lemma leaves_files_validate env : leaves_files (validate env).
Proof.
  unfold validate. induction (onlyfiles env) as [|f fs IH]; simpl.
  - apply leaves_files_pure. reflexivity.
  - apply leaves_files_bind; [apply leaves_files_validate_file|].
    intros _. exact IH.
Qed.


(** X5.  Without [--clean] the program removes nothing: however the run
    ends, every path that existed still exists and every directory is still
    a directory (only tile files are created or rewritten, and missing
    directories made). *)
Theorem main_never_removes env :
  clean (args env) = false -> never_removes (main env).
Proof.
  intros Hclean. unfold main, prepare.
  apply never_removes_bind.
  - apply never_removes_bind.
    { apply never_removes_same. intros s. apply leaves_files_validate. }
    intros _. apply never_removes_bind.
    { apply never_removes_same. intros s. unfold read_stty.
      destruct (stty_size env); reflexivity. }
    intros _. apply never_removes_bind.
    { apply never_removes_same. intros s. unfold check_export_set, bind, gets.
      destruct (files_exported s); reflexivity. }
    intros _. unfold clean_output. rewrite Hclean.
    apply never_removes_same. reflexivity.
  - intros _. unfold extract.
    apply never_removes_bind; [apply never_removes_same; reflexivity|].
    intros fe. apply never_removes_for_each. intros f.
    apply never_removes_export_file.
Qed.

End never_touched.

(* ===================================================================== *)
(** ** Further properties: the bookkeeping of archive validation          *)
(* ===================================================================== *)

Section bookkeeping.

(** What one turn of the validation loop can do: pass the file over; note
    it and crash on the missing format row; note it with a diagnostic; or
    note it, export it and record a diagnostic. *)
Lemma validate_file_outcome env f s :
  let s0 := add_to_parse (resolve (cwd s) (input_dir (args env)) ++ [f]) f s in
  ((splitext f).2 <> extension (args env)
   /\ validate_file env f s = (Ok tt, s))
  \/ ((splitext f).2 = extension (args env)
      /\ (validate_file env f s = (Raise TypeError, s0)
          \/ (exists d, validate_file env f s = (Ok tt, add_message d s0))
          \/ (exists d, validate_file env f s
                        = (Ok tt, add_message d (add_exported f s0))))).
Proof.
  intros s0. destruct (decide ((splitext f).2 = extension (args env))) as [E|NE].
  - right. split; [exact E|].
    rewrite (validate_file_matched env f s E). fold s0.
    unfold try_except_OperationalError, inspect_archive, bind, connect, gets,
      lift.
    change (cwd s0) with (cwd s).
    destruct (default empty_database
                (archives env !! (resolve (cwd s) (input_dir (args env)) ++ [f])))
      as [meta tl].
    unfold fetch_format. cbn [metadata].
    destruct meta as [rows|]; [|right; left; eexists; reflexivity].
    destruct (snd <$> head (filter (fun r : string * sqlval => r.1 = "format"%string) rows))
      as [v|]; [|left; reflexivity].
    cbn [subscript0 ret]. destruct (supported_format v).
    + unfold modify, count_tiles, distinct_zoom_levels. cbn [tiles].
      destruct tl as [ts|]; right; right; eexists; reflexivity.
    + destruct (truthy v); right; left; eexists; reflexivity.
  - left. split; [exact NE|]. apply validate_file_other. exact NE.
Qed.

Lemma validate_loop_outcome env fs : forall s r s',
  for_each fs (validate_file env) s = (r, s') ->
  match r with
  | Ok _ =>
      names_to_parse s'
      = names_to_parse s
        ++ filter (fun f => (splitext f).2 = extension (args env)) fs
      /\ (length (parse_message s') + length (names_to_parse s)
          = length (names_to_parse s') + length (parse_message s))%nat
      /\ exists ex, files_exported s' = files_exported s ++ ex
           /\ ex `sublist_of`
              filter (fun f => (splitext f).2 = extension (args env)) fs
  | Raise e =>
      e = TypeError
      /\ (length (names_to_parse s') + length (parse_message s)
          = S (length (parse_message s') + length (names_to_parse s)))%nat
  end.
Proof.
  induction fs as [|f fs IH]; simpl; intros s r s' H.
  - inversion H; subst. split; [rewrite app_nil_r; reflexivity|].
    split; [lia|]. exists []. rewrite app_nil_r. split; [reflexivity|].
    constructor.
  - unfold bind in H.
    destruct (validate_file_outcome env f s)
      as [[NE E]|[M [E|[[d E]|[d E]]]]]; rewrite E in H.
    + rewrite filter_cons_False by exact NE. apply IH. exact H.
    + inversion H; subst. split; [reflexivity|].
      cbn [add_to_parse names_to_parse parse_message].
      rewrite length_app. simpl. lia.
    + specialize (IH _ _ _ H). rewrite filter_cons_True by exact M.
      cbn [add_message add_to_parse add_exported names_to_parse parse_message
           files_exported] in IH.
      rewrite !length_app in IH. simpl in IH.
      destruct r as [[]|e].
      * destruct IH as (Hn & Hl & ex & He & Hs).
        split; [rewrite Hn, <- app_assoc; reflexivity|]. split; [lia|].
        exists ex. split; [exact He|]. apply sublist_cons. exact Hs.
      * destruct IH as (-> & Hl). split; [reflexivity|]. lia.
    + specialize (IH _ _ _ H). rewrite filter_cons_True by exact M.
      cbn [add_message add_to_parse add_exported names_to_parse parse_message
           files_exported] in IH.
      rewrite !length_app in IH. simpl in IH.
      destruct r as [[]|e].
      * destruct IH as (Hn & Hl & ex & He & Hs).
        split; [rewrite Hn, <- app_assoc; reflexivity|]. split; [lia|].
        exists (f :: ex). split; [rewrite He, <- app_assoc; reflexivity|].
        apply sublist_skip. exact Hs.
      * destruct IH as (-> & Hl). split; [reflexivity|]. lia.
Qed.

(** X7.  After a validation that went through, the listing has one message
    per noted archive: [parse_message[counter]] of line 202 is in range for
    every name of [names_to_parse]. *)
Theorem validate_listing_aligned env s s' :
  length (parse_message s) = length (names_to_parse s) ->
  validate env s = (Ok tt, s') ->
  length (parse_message s') = length (names_to_parse s').
Proof.
  intros H0 H. apply (validate_loop_outcome env) in H.
  destruct H as (_ & Hl & _). lia.
Qed.

(** X8.  After a validation that went through, the noted archives are the
    files of the source directory whose extension is the chosen one, in
    listing order, and the export set is drawn from them in that order. *)
Theorem validate_notes_matching_files env s s' :
  validate env s = (Ok tt, s') ->
  names_to_parse s'
  = names_to_parse s
    ++ filter (fun f => (splitext f).2 = extension (args env)) (onlyfiles env)
  /\ exists ex, files_exported s' = files_exported s ++ ex
       /\ ex `sublist_of`
          filter (fun f => (splitext f).2 = extension (args env))
                 (onlyfiles env).
Proof.
  intros H. apply (validate_loop_outcome env) in H.
  destruct H as (Hn & _ & He). split; assumption.
Qed.

(** X9.  The only exception that leaves the validation loop is the
    [TypeError] of a missing format row; it leaves the last noted archive
    without a message.  [sqlite3.OperationalError] never escapes. *)
Theorem validate_raises_only_TypeError env s e s' :
  length (parse_message s) = length (names_to_parse s) ->
  validate env s = (Raise e, s') ->
  e = TypeError
  /\ length (names_to_parse s') = S (length (parse_message s')).
Proof.
  intros H0 H. apply (validate_loop_outcome env) in H.
  destruct H as (-> & Hl). split; [reflexivity|]. lia.
Qed.

(** X10.  A format row whose value is empty, NULL or zero: the archive
    gets the missing-format diagnostic and stays out of the export set. *)
Theorem empty_format_value_is_reported env f s db v :
  (splitext f).2 = extension (args env) ->
  archives env !! (resolve (cwd s) (input_dir (args env)) ++ [f]) = Some db ->
  fetch_format db = Ok (Some v) ->
  truthy v = false ->
  exists s', validate_file env f s = (Ok tt, s')
    /\ parse_message s' = parse_message s ++ [MissingFormatMetadata]
    /\ files_exported s' = files_exported s.
Proof.
  intros Hext Hdb Hfmt Hfalsy. eexists.
  rewrite (validate_file_matched env f s Hext).
  unfold try_except_OperationalError.
  rewrite (inspect_archive_eq env f
             (add_to_parse (resolve (cwd s) (input_dir (args env)) ++ [f]) f s)
             db v Hdb Hfmt).
  unfold supported_format. rewrite Hfalsy. cbn [andb].
  split; [reflexivity|]. split; reflexivity.
Qed.

(** X27.  An archive that SQLite opens as a database and that validation
    excludes does not stop the loop: when the query on its [metadata]
    relation raises [sqlite3.OperationalError], or its format value is not
    one of png, jpg and jpeg, the archive gets one diagnostic, stays out of
    the export set, and the loop goes on with the next file. *)
Theorem excluded_archive_does_not_stop_validation env f rest s db :
  (splitext f).2 = extension (args env) ->
  archives env !! (resolve (cwd s) (input_dir (args env)) ++ [f]) = Some db ->
  (metadata db = None
   \/ exists v, fetch_format db = Ok (Some v) /\ supported_format v = false) ->
  exists d s',
    validate_file env f s = (Ok tt, s')
    /\ parse_message s' = parse_message s ++ [d]
    /\ files_exported s' = files_exported s
    /\ for_each (f :: rest) (validate_file env) s
       = for_each rest (validate_file env) s'.
Proof.
  intros Hext Hdb Hbad.
  assert (H : exists d s', validate_file env f s = (Ok tt, s')
                /\ parse_message s' = parse_message s ++ [d]
                /\ files_exported s' = files_exported s).
  { destruct Hbad as [Hmeta|(v & Hfmt & Hsup)].
    - destruct (metadata_query_failure_is_excluded env f s db Hext Hdb Hmeta)
        as (s' & Hrun & Hm & He).
      exists OperationalFailure, s'. auto.
    - destruct (truthy v) eqn:Htruthy.
      + destruct (unsupported_format_is_excluded env f s db v
                    Hext Hdb Hfmt Htruthy Hsup) as (s' & Hrun & Hm & He).
        exists (UnsupportedFormat v), s'. auto.
      + exists MissingFormatMetadata. eexists.
        rewrite (validate_file_matched env f s Hext).
        unfold try_except_OperationalError.
        rewrite (inspect_archive_eq env f
                   (add_to_parse (resolve (cwd s) (input_dir (args env)) ++ [f])
                                 f s) db v Hdb Hfmt), Hsup, Htruthy.
        split; [reflexivity|]. split; reflexivity. }
  destruct H as (d & s' & Hrun & Hm & He).
  exists d, s'. split; [exact Hrun|]. split; [exact Hm|]. split; [exact He|].
  simpl. unfold bind. rewrite Hrun. reflexivity.
Qed.

End bookkeeping.

(* ===================================================================== *)
(** ** Further properties: the filtered query                             *)
(* ===================================================================== *)

Section filtered_query.


(** X12.  With both bounds given and the maximum below the minimum, the
    query yields nothing. *)
Theorem select_rows_inverted_range mn mx ts :
  mn <> -1 -> mx <> -1 -> mx < mn ->
  select_rows mn mx ts = [].
Proof.
  intros Hmn Hmx Hlt. unfold select_rows.
  rewrite !(bool_decide_eq_false_2 (mn = -1)) by assumption.
  rewrite !(bool_decide_eq_false_2 (mx = -1)) by assumption.
  cbn [andb negb].
  induction ts as [|t ts IH]; [reflexivity|].
  rewrite filter_cons_False by lia. exact IH.
Qed.

(** X13.  Filtering by both bounds is filtering by the maximum and then by
    the minimum. *)
Theorem select_rows_composes mn mx ts :
  select_rows mn mx ts = select_rows mn (-1) (select_rows (-1) mx ts).
Proof.
  unfold select_rows.
  rewrite !(bool_decide_eq_true_2 (-1 = -1)) by reflexivity.
  destruct (bool_decide (mn = -1)), (bool_decide (mx = -1));
    cbn [andb negb]; try reflexivity.
  rewrite list_filter_filter. apply list_filter_iff. intros t. tauto.
Qed.

End filtered_query.

(* ===================================================================== *)
(** ** Further properties: tile paths                                     *)
(* ===================================================================== *)

Section tile_paths.

Lemma string_length_app (s1 s2 : string) :
  String.length (s1 ++ s2) = (String.length s1 + String.length s2)%nat.
Proof. induction s1 as [|c s1 IH]; simpl; [reflexivity|]. rewrite IH. reflexivity. Qed.

Lemma string_app_inv_tail (s1 s2 e : string) :
  (s1 ++ e)%string = (s2 ++ e)%string -> s1 = s2.
Proof.
  revert s2. induction s1 as [|a s1 IH]; intros [|c s2] H.
  - reflexivity.
  - apply (f_equal String.length) in H.
    change (String.length (String c s2 ++ e))
      with (S (String.length (s2 ++ e))) in H.
    rewrite !string_length_app in H. simpl in H. lia.
  - apply (f_equal String.length) in H.
    change (String.length (String a s1 ++ e))
      with (S (String.length (s1 ++ e))) in H.
    rewrite !string_length_app in H. simpl in H. lia.
  - change (String a (s1 ++ e) = String c (s2 ++ e)) in H.
    injection H as -> H. f_equal. apply IH. exact H.
Qed.

(** The path of a tile determines its coordinates. *)
Lemma tile_path_inj s row1 row2 ext :
  tile_path s row1 ext = tile_path s row2 ext ->
  coordinates row1 = coordinates row2.
Proof.
  unfold tile_path, image_name, str. intros H. apply app_inv_head in H.
  injection H as Hz Hc Hr.
  apply (inj pretty) in Hz. apply N2Z.inj in Hz.
  apply (inj pretty) in Hc.
  apply string_app_inv_tail in Hr. apply (inj pretty) in Hr.
  rewrite Hz in Hr. unfold coordinates. rewrite Hz, Hc. f_equal. lia.
Qed.

(** X14.  Two tile records land on the same output path only if they have
    the same zoom level, column and row: within one extension, the path
    determines the coordinates. *)
Theorem tile_path_determines_coordinates s row1 row2 ext :
  tile_path s row1 ext = tile_path s row2 ext ->
  coordinates row1 = coordinates row2.
Proof.
  intros H. apply (tile_path_inj s row1 row2 ext). exact H.
Qed.

(** X15.  The row flip is its own inverse and keeps rows inside the grid:
    a tile stored at row [2^zoom - 1 - r] is written to the file named [r],
    and a row in [[0, 2^zoom)] is sent to a row in [[0, 2^zoom)]. *)
Theorem row_flip_involution z c r data ext :
  image_name (mkTile z c (2 ^ Z.of_N z - 1 - r) data) ext
  = (str r ++ ext)%string
  /\ (0 <= r < 2 ^ Z.of_N z ->
      0 <= 2 ^ Z.of_N z - 1 - r < 2 ^ Z.of_N z).
Proof.
  split.
  - unfold image_name. cbn [zoom_level tile_row]. f_equal. f_equal. lia.
  - lia.
Qed.

End tile_paths.

(* ===================================================================== *)
(** ** Further properties: cleaning, empty archives, the exit paths       *)
(* ===================================================================== *)

Section exits.

Context {lib : ImageLib}.

(** [delete_all_in_folder] on a directory. *)
Lemma delete_all_in_folder_dir folder s :
  nodes s !! folder = Some Dir ->
  exists s', delete_all_in_folder folder s = (Ok tt, s')
    /\ cwd s' = cwd s
    /\ (forall p, folder `prefix_of` p -> p <> folder -> nodes s' !! p = None)
    /\ (forall p, ~ (folder `prefix_of` p /\ p <> folder) ->
                  nodes s' !! p = nodes s !! p).
Proof.
  intros Hdir. unfold delete_all_in_folder. rewrite Hdir.
  eexists. split; [reflexivity|]. split; [reflexivity|].
  cbn [nodes set_nodes]. split.
  - intros p Hpre Hne. apply map_lookup_filter_None. right.
    intros x _ Hkeep. apply Hkeep. split; assumption.
  - intros p Hout. destruct (nodes s !! p) as [x|] eqn:E.
    + apply map_lookup_filter_Some_2; assumption.
    + apply map_lookup_filter_None. left. assumption.
Qed.

Lemma below_spec folder : forall p r, below folder p = Some r <-> p = folder ++ r.
Proof.
  induction folder as [|d folder IH]; intros p r; simpl.
  - split; congruence.
  - destruct p as [|d' p]; [split; discriminate|].
    destruct (decide (d = d')) as [->|NE].
    + rewrite IH. split; [intros ->; reflexivity|]. intros E.
      injection E as E. exact E.
    + split; [discriminate|]. intros E. injection E as E _. congruence.
Qed.

Lemma elem_of_listdir folder fs name :
  name ∈ listdir folder fs <-> is_Some (fs !! (folder ++ [name])).
Proof.
  unfold listdir. rewrite list_elem_of_omap. split.
  - intros ([p x] & Hin & Hname). apply elem_of_map_to_list in Hin.
    unfold entry_name in Hname. cbn [fst] in Hname.
    destruct (below folder p) as [[|n [|? ?]]|] eqn:E; try discriminate.
    injection Hname as ->. apply below_spec in E. subst p. eauto.
  - intros [x Hx]. exists (folder ++ [name], x). split.
    + apply elem_of_map_to_list. exact Hx.
    + unfold entry_name. cbn [fst].
      rewrite (proj2 (below_spec folder (folder ++ [name]) [name]) eq_refl).
      reflexivity.
Qed.

(** In a tree, what is strictly below an entry sits below a directory. *)
Lemma tree_below_entry folder fs name rest :
  tree_below folder fs ->
  is_Some (fs !! (folder ++ name :: rest)) ->
  is_Some (fs !! (folder ++ [name]))
  /\ (rest <> [] -> fs !! (folder ++ [name]) = Some Dir).
Proof.
  intros Htree. induction rest as [|m rest IH] using rev_ind; intros Hq.
  - split; [exact Hq|congruence].
  - assert (Hp : fs !! (folder ++ name :: rest) = Some Dir).
    { apply (Htree _ m).
      - apply prefix_app_r. reflexivity.
      - rewrite <- app_assoc. exact Hq. }
    destruct IH as [Hsome Hdir]; [rewrite Hp; eauto|].
    split; [exact Hsome|]. intros _.
    destruct rest as [|r rest]; [exact Hp|]. apply Hdir. discriminate.
Qed.

(** In a tree, deleting an entry removes what has the entry's path as a
    prefix, and leaves a tree. *)
Lemma delete_entry_tree folder name s :
  tree_below folder (nodes s) ->
  delete_entry folder name s
  = (Ok tt, set_nodes (filter (fun kv => ~ (folder ++ [name]) `prefix_of` kv.1)
                              (nodes s)) s).
Proof.
  intros Htree. unfold delete_entry. cbv zeta.
  assert (Hstrict : forall q x, nodes s !! q = Some x ->
            (folder ++ [name]) `prefix_of` q -> q <> folder ++ [name] ->
            nodes s !! (folder ++ [name]) = Some Dir).
  { intros q x Hq [rest ->] Hne. rewrite <- app_assoc in Hq. simpl in Hq.
    destruct (tree_below_entry folder (nodes s) name rest Htree) as [_ Hdir];
      [eauto|].
    apply Hdir. intros ->. apply Hne. apply app_nil_r. }
  destruct (nodes s !! (folder ++ [name])) as [[|b]|] eqn:E.
  - reflexivity.
  - unfold unlink, modify. f_equal. f_equal. apply map_eq. intros q.
    destruct (decide (q = folder ++ [name])) as [->|NE].
    + rewrite lookup_delete_eq. symmetry. apply map_lookup_filter_None.
      right. intros x _ Hkeep. apply Hkeep. reflexivity.
    + rewrite lookup_delete_ne by congruence.
      destruct (nodes s !! q) as [x|] eqn:Eq.
      * symmetry. apply map_lookup_filter_Some_2; [exact Eq|].
        cbn [fst]. intros Hpre.
        pose proof (Hstrict q x Eq Hpre NE). congruence.
      * symmetry. apply map_lookup_filter_None. left. exact Eq.
  - f_equal. destruct s as [c fs a b d e f]. unfold set_nodes. cbn.
    f_equal. cbn in *. symmetry. apply map_eq. intros q.
    destruct (fs !! q) as [x|] eqn:Eq.
    + apply map_lookup_filter_Some_2; [exact Eq|].
      cbn [fst]. intros [rest ->]. rewrite <- app_assoc in Eq. simpl in Eq.
      destruct (tree_below_entry folder fs name rest Htree) as [[y Hy] _];
        [eauto|].
      congruence.
    + apply map_lookup_filter_None. left. exact Eq.
Qed.

Lemma tree_below_filter folder name fs :
  tree_below folder fs ->
  tree_below folder (filter (fun kv => ~ (folder ++ [name]) `prefix_of` kv.1) fs).
Proof.
  intros Htree p n Hpre [x Hx].
  apply map_lookup_filter_Some in Hx as [Hx Hkeep]. cbn [fst] in Hkeep.
  apply map_lookup_filter_Some_2.
  - apply (Htree p n Hpre). eauto.
  - cbn [fst]. intros Hp. apply Hkeep.
    destruct Hp as [k ->]. exists (k ++ [n]). rewrite !app_assoc. reflexivity.
Qed.

(** The loop over any list of names. *)
Lemma delete_entries_tree folder names : forall s,
  tree_below folder (nodes s) ->
  for_each names (delete_entry folder) s
  = (Ok tt,
     set_nodes (filter (fun kv => Forall (fun name =>
                                    ~ (folder ++ [name]) `prefix_of` kv.1) names)
                       (nodes s)) s).
Proof.
  induction names as [|n names IH]; intros s Htree.
  - simpl. unfold ret. f_equal. destruct s as [c fs a b d e f].
    unfold set_nodes. cbn. f_equal. symmetry.
    apply map_eq. intros q. destruct (fs !! q) as [x|] eqn:Eq.
    + apply map_lookup_filter_Some_2; [exact Eq|]. constructor.
    + apply map_lookup_filter_None. left. exact Eq.
  - simpl. unfold bind. rewrite (delete_entry_tree folder n s Htree).
    rewrite IH by (apply tree_below_filter; exact Htree).
    f_equal. destruct s as [c fs a b d e f]. unfold set_nodes. cbn.
    f_equal. rewrite map_filter_filter. apply map_filter_ext.
    intros q x Hq. cbn [fst]. rewrite Forall_cons. tauto.
Qed.

(** The loop over a listing of the folder, in any order. *)
Lemma delete_entries_listing folder names s :
  tree_below folder (nodes s) ->
  nodes s !! folder = Some Dir ->
  (forall name, name ∈ names <-> is_Some (nodes s !! (folder ++ [name]))) ->
  for_each names (delete_entry folder) s = delete_all_in_folder folder s.
Proof.
  intros Htree Hdir Hnames. unfold delete_all_in_folder. rewrite Hdir.
  rewrite (delete_entries_tree folder names s Htree). f_equal. f_equal.
  apply map_filter_ext. intros q x Hq. cbn [fst]. rewrite Forall_forall.
  split.
  - intros Hall [[rest ->] Hne].
    destruct rest as [|n rest]; [apply Hne; apply app_nil_r|].
    destruct (tree_below_entry folder (nodes s) n rest Htree) as [Hsome _];
      [eauto|].
    apply (Hall n).
    + apply Hnames. exact Hsome.
    + exists rest. rewrite <- app_assoc. reflexivity.
  - intros Hout name _ [rest ->]. apply Hout. split.
    + exists (name :: rest). rewrite <- app_assoc. reflexivity.
    + rewrite <- app_assoc. intros Eq.
      rewrite <- (app_nil_r folder) in Eq at 2.
      apply app_inv_head in Eq. discriminate.
Qed.

Lemma tree_belowb_sound folder fs :
  tree_belowb folder fs = true -> tree_below folder fs.
Proof.
  intros H p name Hpre [x Hx]. unfold tree_belowb in H.
  rewrite forallb_forall in H.
  apply elem_of_map_to_list, list_elem_of_In in Hx.
  specialize (H _ Hx). cbn [fst] in H.
  assert (Hb : implb (bool_decide (folder `prefix_of` p)) (is_dir fs p) = true).
  { rewrite <- (removelast_last p name).
    destruct (p ++ [name]) as [|c l] eqn:E; [destruct p; discriminate|].
    exact H. }
  rewrite bool_decide_eq_true_2 in Hb by exact Hpre. cbn [implb] in Hb.
  unfold is_dir in Hb. destruct (fs !! p) as [[|b]|]; congruence.
Qed.

(** X16.  The loop of [delete_all_in_folder] empties the folder.  Where
    what is below the folder is a tree, listing the folder once and then
    unlinking every file entry and removing every directory entry with its
    content leaves no path strictly below the folder and every other path
    as it was, in whatever order the entries are listed: the loop does what
    [delete_all_in_folder] says of it. *)
Theorem delete_all_in_folder_loop_empties folder s :
  tree_below folder (nodes s) ->
  delete_all_in_folder_loop folder s = delete_all_in_folder folder s
  /\ (nodes s !! folder = Some Dir ->
      forall names,
        (forall name, name ∈ names <-> name ∈ listdir folder (nodes s)) ->
        exists s',
          for_each names (delete_entry folder) s = (Ok tt, s')
          /\ cwd s' = cwd s
          /\ (forall p, folder `prefix_of` p -> p <> folder ->
                        nodes s' !! p = None)
          /\ (forall p, ~ (folder `prefix_of` p /\ p <> folder) ->
                        nodes s' !! p = nodes s !! p)).
Proof.
  intros Htree. split.
  - unfold delete_all_in_folder_loop.
    destruct (nodes s !! folder) as [[|b]|] eqn:E.
    + apply (delete_entries_listing folder _ s Htree E).
      intros name. apply elem_of_listdir.
    + unfold delete_all_in_folder. rewrite E. reflexivity.
    + unfold delete_all_in_folder. rewrite E. reflexivity.
  - intros Hdir names Hnames.
    rewrite (delete_entries_listing folder names s Htree Hdir).
    + apply delete_all_in_folder_dir. exact Hdir.
    + intros name. rewrite Hnames. apply elem_of_listdir.
Qed.

(** X18.  Cleaning asked for and declined: with [--clean] but neither
    [--silent] nor [--yes], an answer other than y, yes, yea or yeah ends
    the program with exit code 1 after validation; from line 142 on, that
    is once the start-up code has made sure the output directory exists, no
    file or directory has been touched and the process has not moved. *)
Theorem declined_clean_exits env s0 s tty :
  validate env s0 = (Ok tt, s) ->
  stty_size env = Some tty ->
  files_exported s <> [] ->
  clean (args env) = true ->
  silent (args env) = false ->
  yes (args env) = false ->
  is_yes (response env) = false ->
  main env s0 = (Raise (SystemExit 1), s)
  /\ nodes s = nodes s0 /\ cwd s = cwd s0.
Proof.
  intros Hval Htty Hfe Hclean Hsilent Hyes Hno. split.
  - unfold main, prepare. apply bind_raise.
    rewrite (bind_ok _ _ _ _ _ Hval).
    unfold read_stty. rewrite Htty. unfold bind at 1. cbn [ret].
    unfold check_export_set, bind, gets.
    destruct (files_exported s) as [|x xs]; [congruence|]. cbn [ret].
    unfold clean_output. rewrite Hclean, Hsilent, Hyes, Hno. reflexivity.
  - pose proof (leaves_files_validate env s0) as (Hc & Hn & _).
    rewrite Hval in Hc, Hn. split; assumption.
Qed.

(** X19.  Cleaning confirmed by [--yes] (or [--silent]): extraction starts
    from an output directory with nothing below it. *)
Theorem confirmed_clean_empties_output env s0 s tty :
  validate env s0 = (Ok tt, s) ->
  stty_size env = Some tty ->
  files_exported s <> [] ->
  clean (args env) = true ->
  silent (args env) || yes (args env) = true ->
  nodes s0 !! resolve (cwd s0) (dirname (args env)) = Some Dir ->
  exists s', prepare env s0 = (Ok tt, s')
    /\ files_exported s' = files_exported s
    /\ (forall p, resolve (cwd s0) (dirname (args env)) `prefix_of` p ->
                  p <> resolve (cwd s0) (dirname (args env)) ->
                  nodes s' !! p = None)
    /\ (forall p, ~ (resolve (cwd s0) (dirname (args env)) `prefix_of` p
                     /\ p <> resolve (cwd s0) (dirname (args env))) ->
                  nodes s' !! p = nodes s0 !! p).
Proof.
  intros Hval Htty Hfe Hclean Hyes Hdir.
  pose proof (leaves_files_validate env s0) as (Hc & Hn & _).
  rewrite Hval in Hc, Hn. cbn [snd] in Hc, Hn.
  rewrite <- Hc, <- Hn in Hdir.
  destruct (delete_all_in_folder_dir _ s Hdir) as (s' & Hdel & _ & H1 & H2).
  exists s'. split; [|split; [|split]].
  - unfold prepare. rewrite (bind_ok _ _ _ _ _ Hval).
    unfold read_stty. rewrite Htty. unfold bind at 1. cbn [ret].
    unfold check_export_set, bind, gets.
    destruct (files_exported s) as [|x xs]; [congruence|]. cbn [ret].
    unfold clean_output. rewrite Hclean, Hyes. exact Hdel.
  - unfold delete_all_in_folder in Hdel. rewrite Hdir in Hdel.
    inversion Hdel. reflexivity.
  - rewrite <- Hc. exact H1.
  - rewrite <- Hc, <- Hn. exact H2.
Qed.

(** X20.  No exportable archive, no output: when validation ends with an
    empty export set the program exits with code 1, and the file system and
    the working directory are as they were at line 142, that is once the
    start-up code has made sure the output directory exists. *)
Theorem no_export_no_output env s0 s tty :
  validate env s0 = (Ok tt, s) ->
  stty_size env = Some tty ->
  files_exported s = [] ->
  main env s0 = (Raise (SystemExit 1), s)
  /\ nodes s = nodes s0 /\ cwd s = cwd s0.
Proof.
  intros Hval Htty Hfe. split.
  - apply (empty_export_set_exits lib env s0 s tty); assumption.
  - pose proof (leaves_files_validate env s0) as (Hc & Hn & _).
    rewrite Hval in Hc, Hn. split; assumption.
Qed.

(** X21.  An archive without tiles cannot be exported: the first progress
    bar divides by the row count, [ZeroDivisionError] ends the run before
    the output directory is entered and nothing is written. *)
Theorem empty_archive_raises env f s db rows :
  archives env !! (resolve (cwd s) (input_dir (args env)) ++ [f]) = Some db ->
  metadata db = Some rows ->
  tiles db = Some [] ->
  exists s', export_file env f s = (Raise ZeroDivisionError, s')
    /\ nodes s' = nodes s /\ cwd s' = cwd s.
Proof.
  intros Hdb Hmeta Htiles.
  assert (Hopen : exists s', open_archive env f s = (Raise ZeroDivisionError, s')
                             /\ nodes s' = nodes s /\ cwd s' = cwd s).
  { unfold open_archive, bind, connect, gets, lift.
    rewrite Hdb. cbn [default from_option id].
    unfold fetch_format, count_tiles, select_tiles. rewrite Hmeta, Htiles.
    set (fmt := snd <$> head (filter _ rows)).
    assert (Hd : exists s1, determine_out_format fmt s = (Ok tt, s1)
                            /\ nodes s1 = nodes s /\ cwd s1 = cwd s).
    { unfold determine_out_format, modify, ret.
      destruct fmt as [v|]; [|eauto].
      destruct (eq_str v "png"); [eauto|].
      destruct (eq_str v "jpg"); eauto. }
    destruct Hd as (s1 & -> & Hn & Hc).
    exists s1. split; [reflexivity|]. split; assumption. }
  destruct Hopen as (s' & Hopen & Hn & Hc).
  exists s'. split; [|split; assumption].
  unfold export_file. apply bind_raise. exact Hopen.
Qed.

End exits.

(* ===================================================================== *)
(** ** Further properties: expanding an archive                           *)
(* ===================================================================== *)

Section expansion.

Context {lib : ImageLib}.

Lemma tile_written_lookup s row ext data q :
  nodes (tile_written s row ext data) !! q =
  if decide (q = tile_path s row ext) then Some (File data)
  else if decide (q = tile_dir s row) then Some Dir
  else if decide (q = cwd s ++ [str (Z.of_N (zoom_level row))]) then Some Dir
  else nodes s !! q.
Proof.
  cbn [tile_written nodes set_nodes]. unfold with_dirs.
  repeat case_decide; subst.
  - apply lookup_insert_eq.
  - rewrite lookup_insert_ne by congruence. apply lookup_insert_eq.
  - rewrite !lookup_insert_ne by congruence. apply lookup_insert_eq.
  - rewrite !lookup_insert_ne by congruence. reflexivity.
Qed.

Lemma tile_step_fresh l i row s ext :
  out_format s = Some ext -> l <> 0 -> place_free s ext row ->
  tile_step l i row s
  = (Ok tt, set_cwd (cwd s) (tile_written s row ext (tile_data row))).
Proof.
  intros Hext Hl [Hfree Hnone]. unfold tile_step.
  assert (Hp : place_tile row s
               = (Ok tt, tile_written s row ext (tile_data row))).
  { rewrite (place_tile_eq s row ext Hext Hfree), Hnone. reflexivity. }
  rewrite (bind_ok _ _ _ _ _ Hp).
  assert (Hbar : (if bool_decide (i mod 5 = 0) then printProgressBar i l
                  else ret tt) (tile_written s row ext (tile_data row))
                 = (Ok tt, tile_written s row ext (tile_data row))).
  { unfold printProgressBar. rewrite (bool_decide_eq_false_2 (l = 0)) by exact Hl.
    destruct (bool_decide (i mod 5 = 0)); reflexivity. }
  rewrite (bind_ok _ _ _ _ _ Hbar).
  unfold bind, chdir_up, modify. cbn [cwd set_cwd tile_written set_nodes
                                          in_tile_dir].
  rewrite removelast_tile_dir. reflexivity.
Qed.

(** Another tile, with other coordinates, is as free to be placed after
    [row] has been written as it was before. *)
Lemma place_free_after s ext row data row' :
  place_free s ext row ->
  place_free s ext row' ->
  coordinates row' <> coordinates row ->
  place_free (set_cwd (cwd s) (tile_written s row ext data)) ext row'.
Proof.
  intros [[Hz Hc] Hnone] [[Hz' Hc'] Hnone'] Hne.
  assert (Hpath : tile_path s row' ext <> tile_path s row ext).
  { intros E. apply Hne. apply (tile_path_inj s _ _ ext E). }
  unfold place_free, dirs_free, tile_path, tile_dir in *.
  cbn [cwd set_cwd nodes]. repeat split.
  - intros b. change (nodes (set_cwd (cwd s) ?x)) with (nodes x).
    rewrite tile_written_lookup. unfold tile_path, tile_dir.
    repeat case_decide; try discriminate; try apply Hz'.
    all: match goal with E : _ ++ _ = _ ++ _ |- _ =>
           apply app_inv_head in E; discriminate end.
  - intros b. change (nodes (set_cwd (cwd s) ?x)) with (nodes x).
    rewrite tile_written_lookup. unfold tile_path, tile_dir.
    repeat case_decide; try discriminate; try apply Hc'.
    all: match goal with E : _ ++ _ = _ ++ _ |- _ =>
           apply app_inv_head in E; discriminate end.
  - change (nodes (set_cwd (cwd s) ?x)) with (nodes x).
    rewrite tile_written_lookup. unfold tile_path, tile_dir.
    repeat case_decide; try congruence.
    all: match goal with E : _ ++ _ = _ ++ _ |- _ =>
           apply app_inv_head in E; discriminate end.
Qed.

(** The row loop over rows that are free to be placed, by induction on the rows. *)
Lemma tile_loop_fresh l rows : forall i s ext,
  out_format s = Some ext ->
  l <> 0 ->
  NoDup (coordinates <$> rows) ->
  (forall row, row ∈ rows -> place_free s ext row) ->
  exists s',
    tile_loop l i rows s = (Ok tt, s')
    /\ cwd s' = cwd s
    /\ out_format s' = Some ext
    /\ (forall row, row ∈ rows ->
          nodes s' !! tile_path s row ext = Some (File (tile_data row)))
    /\ (forall p b, nodes s !! p = Some (File b) ->
                    nodes s' !! p = Some (File b)).
Proof.
  induction rows as [|row rows IH]; intros i s ext Hext Hl Hnd Hfree.
  - exists s. split; [reflexivity|]. split; [reflexivity|].
    split; [exact Hext|]. split; [|auto].
    intros row Hin. inversion Hin.
  - rewrite fmap_cons in Hnd. apply NoDup_cons in Hnd as [Hnotin Hnd].
    assert (Hrow : place_free s ext row) by (apply Hfree; left).
    set (s1 := set_cwd (cwd s) (tile_written s row ext (tile_data row))).
    assert (Hfree1 : forall row', row' ∈ rows -> place_free s1 ext row').
    { intros row' Hin. apply place_free_after; [exact Hrow| |].
      - apply Hfree. right. exact Hin.
      - intros E. apply Hnotin. rewrite <- E.
        apply list_elem_of_fmap. exists row'. split; [reflexivity|exact Hin]. }
    destruct (IH (i + 1) s1 ext Hext Hl Hnd Hfree1)
      as (s' & Hloop & Hcwd & Hout & Hfiles & Hkeep).
    exists s'. simpl. rewrite (bind_ok _ _ _ _ _ (tile_step_fresh l i row s ext Hext Hl Hrow)).
    fold s1. split; [exact Hloop|]. split; [exact Hcwd|]. split; [exact Hout|].
    assert (Hmine : nodes s1 !! tile_path s row ext
                    = Some (File (tile_data row))).
    { subst s1. change (nodes (set_cwd (cwd s) ?x)) with (nodes x).
      rewrite tile_written_lookup. rewrite decide_True by reflexivity.
      reflexivity. }
    split.
    + intros row' Hin. apply elem_of_cons in Hin as [->|Hin].
      * apply Hkeep. exact Hmine.
      * apply (Hfiles row' Hin).
    + intros p b Hp. apply Hkeep. subst s1.
      change (nodes (set_cwd (cwd s) ?x)) with (nodes x).
      rewrite tile_written_lookup.
      destruct Hrow as [[Hz Hc] Hnone].
      pose proof (Hz b) as Hzb. pose proof (Hc b) as Hcb.
      repeat case_decide; subst; congruence.
Qed.

(** X22.  Expanding into free space: when the rows to place have pairwise
    different coordinates and nothing is in their way, the row loop goes
    through, comes back to the output directory, and leaves every tile's
    bytes, as they are in the archive, in the file at that tile's path;
    files that were there before keep their content. *)
Theorem tile_loop_expands_fresh l rows i s ext :
  out_format s = Some ext ->
  l <> 0 ->
  NoDup (coordinates <$> rows) ->
  (forall row, row ∈ rows -> place_free s ext row) ->
  exists s',
    tile_loop l i rows s = (Ok tt, s')
    /\ cwd s' = cwd s
    /\ out_format s' = Some ext
    /\ (forall row, row ∈ rows ->
          nodes s' !! tile_path s row ext = Some (File (tile_data row)))
    /\ (forall p b, nodes s !! p = Some (File b) ->
                    nodes s' !! p = Some (File b)).
Proof.
  intros Hext Hl Hnd Hfree.
  apply (tile_loop_fresh l rows i s ext); assumption.
Qed.

Lemma blend_band_mask255 out inp : blend_band xff out inp = inp.
Proof.
  unfold blend_band, BLEND8. change (band xff) with 255.
  replace (band out * (255 - 255) + band inp * 255) with (255 * band inp) by lia.
  rewrite DIV255_scaled by apply band_range. apply uint8_band.
Qed.

Lemma paste_row_opaque out inp :
  length out = length inp ->
  Forall (fun p => alpha p = xff) inp -> paste_row out inp = inp.
Proof.
  revert inp. induction out as [|o out IH]; intros [|p inp] Hlen Hop;
    simpl in *; try discriminate; [reflexivity|].
  inversion Hop as [|? ? Ha Hrest]; subst.
  unfold blend_pixel. rewrite Ha, !blend_band_mask255.
  rewrite IH by (try lia; assumption). destruct p; simpl in *. subst.
  reflexivity.
Qed.

Lemma paste_opaque im1 im2 :
  same_size im1 im2 -> opaque im2 -> paste im1 im2 = im2.
Proof.
  intros Hsize. induction Hsize as [|r1 r2 im1 im2 Hlen Hsize IH];
    intros Hop; [reflexivity|]. simpl.
  inversion Hop; subst. rewrite paste_row_opaque by assumption.
  rewrite IH by assumption. reflexivity.
Qed.

(** X23.  An opaque tile of the same size as the tile already at its path
    takes its place whole: the paste yields the new image, nothing of the
    old one, and that image is what [save] is given under the tile's name.
    Where the save goes through the file then holds its encoding; where it
    raises, the run ends with the file as the failed save left it. *)
Theorem opaque_tile_overwrites s row ext old im1 im2 :
  out_format s = Some ext ->
  dirs_free s row ->
  nodes s !! tile_path s row ext = Some (File old) ->
  image_open old = Some im1 ->
  image_open (tile_data row) = Some im2 ->
  same_size im1 im2 ->
  opaque im2 ->
  paste im1 im2 = im2
  /\ place_tile row s =
     match image_save (image_name row ext) im2 with
     | Saved b => (Ok tt, tile_written s row ext b)
     | SaveError (Some b) => (Raise ImageSaveError, tile_written s row ext b)
     | SaveError None => (Raise ImageSaveError, in_tile_dir s row)
     end.
Proof.
  intros Hext Hfree Hold H1 H2 Hsize Hop.
  split; [apply paste_opaque; assumption|].
  rewrite (place_tile_eq s row ext Hext Hfree), Hold, H1, H2.
  rewrite (paste_opaque im1 im2 Hsize Hop). apply Image_save_eq.
Qed.

(** In a directory with nothing below it, every tile is free to be
    placed. *)
Lemma empty_directory_place_free s ext row :
  (forall p, cwd s `prefix_of` p -> p <> cwd s -> nodes s !! p = None) ->
  place_free s ext row.
Proof.
  intros Hempty.
  assert (Hbelow : forall l, l <> [] -> nodes s !! (cwd s ++ l) = None).
  { intros l Hl. apply Hempty.
    - apply prefix_app_r. reflexivity.
    - intros E. rewrite <- (app_nil_r (cwd s)) in E at 2.
      apply app_inv_head in E. contradiction. }
  unfold place_free, dirs_free, tile_dir, tile_path.
  rewrite !Hbelow by discriminate. repeat split; intros; discriminate.
Qed.

(** X26.  Exporting a png or jpg archive into an empty output directory:
    when the rows the zoom filter selects have pairwise different
    coordinates, the export goes through and every selected tile's bytes
    are, unchanged, in [zoom/column/(2^zoom - 1 - row)] plus the extension
    below the output directory; no file that existed is changed, and the
    process ends in the parent of the output directory. *)
Theorem export_into_empty_directory env f s db v ext ts :
  archives env !! (resolve (cwd s) (input_dir (args env)) ++ [f]) = Some db ->
  fetch_format db = Ok (Some v) ->
  (v = SText "png" /\ ext = ".png"%string
   \/ v = SText "jpg" /\ ext = ".jpg"%string) ->
  tiles db = Some ts ->
  ts <> [] ->
  NoDup (coordinates
           <$> select_rows (min_zoom (args env)) (max_zoom (args env)) ts) ->
  nodes s !! resolve (cwd s) (dirname (args env)) = Some Dir ->
  (forall p, resolve (cwd s) (dirname (args env)) `prefix_of` p ->
             p <> resolve (cwd s) (dirname (args env)) ->
             nodes s !! p = None) ->
  exists s',
    export_file env f s = (Ok tt, s')
    /\ cwd s' = removelast (resolve (cwd s) (dirname (args env)))
    /\ (forall row,
          row ∈ select_rows (min_zoom (args env)) (max_zoom (args env)) ts ->
          nodes s' !! (resolve (cwd s) (dirname (args env))
                       ++ [str (Z.of_N (zoom_level row)); str (tile_column row);
                           (str (2 ^ Z.of_N (zoom_level row) - 1 - tile_row row)
                            ++ ext)%string])
          = Some (File (tile_data row)))
    /\ (forall p b, nodes s !! p = Some (File b) ->
                    nodes s' !! p = Some (File b)).
Proof.
  intros Hdb Hfmt Hv Hts Hne Hnd Hdir Hempty.
  set (out := resolve (cwd s) (dirname (args env))) in *.
  set (rows := select_rows (min_zoom (args env)) (max_zoom (args env)) ts) in *.
  set (l := Z.of_nat (length ts)).
  set (s2 := set_cwd out (set_out_format ext s)).
  assert (Hl : l <> 0).
  { subst l. destruct ts; [congruence|]. simpl. lia. }
  assert (Hopen : open_archive env f s = (Ok (l, rows), s2)).
  { unfold open_archive, bind, connect, gets, lift.
    rewrite Hdb. cbn [default from_option id]. rewrite Hfmt.
    assert (Hd : determine_out_format (Some v) s = (Ok tt, set_out_format ext s)).
    { destruct Hv as [[-> ->]|[-> ->]]; reflexivity. }
    rewrite Hd. unfold count_tiles, select_tiles. rewrite Hts.
    fold l. fold rows. unfold printProgressBar.
    rewrite (bool_decide_eq_false_2 (l = 0)) by exact Hl.
    cbn [ret]. unfold chdir_path.
    change (cwd (set_out_format ext s)) with (cwd s).
    change (nodes (set_out_format ext s)) with (nodes s).
    fold out. rewrite Hdir. reflexivity. }
  destruct (tile_loop_fresh l rows 0 s2 ext eq_refl Hl Hnd)
    as (s3 & Hloop & Hcwd & _ & Hfiles & Hkeep).
  { intros row _. apply empty_directory_place_free. exact Hempty. }
  exists (set_cwd (removelast (cwd s3)) s3).
  split; [|split; [|split]].
  - unfold export_file. rewrite (bind_ok _ _ _ _ _ Hopen). cbn [fst snd].
    rewrite (bind_ok _ _ _ _ _ Hloop).
    unfold bind, chdir_up, modify, printProgressBar.
    rewrite (bool_decide_eq_false_2 (l = 0)) by exact Hl. reflexivity.
  - cbn [cwd set_cwd]. rewrite Hcwd. reflexivity.
  - intros row Hin. apply (Hfiles row Hin).
  - intros p b Hp. apply Hkeep. exact Hp.
Qed.

End expansion.

(* ===================================================================== *)
(** ** Further properties: the progress bar                               *)
(* ===================================================================== *)

Section progress.

Lemma repeat_text_length s n :
  length (repeat_text s n) = (n * length s)%nat.
Proof.
  induction n as [|n IH]; [reflexivity|].
  simpl. rewrite length_app, IH. reflexivity.
Qed.

(** X24.  The bar has the width it is given: for a [fill] of one character
    (the default [full_block] is one), a positive [total] and
    [0 <= iteration <= total], the bar drawn for the width
    [loading_length columns longest] is exactly that many characters long
    (and [loading_length] is never negative); at [iteration = total] all of
    it is filled. *)
Theorem bar_has_loading_length fill columns longest iteration total :
  length fill = 1%nat ->
  0 < total ->
  0 <= iteration <= total ->
  let width := loading_length columns longest in
  0 <= width
  /\ length (bar fill width iteration total) = Z.to_nat width
  /\ bar fill width total total = times fill width.
Proof.
  intros Hfill Htotal Hiter width.
  assert (Hw : 0 <= width).
  { subst width. unfold loading_length. cbv zeta.
    destruct (Z.ltb_spec (columns - longest - 53) 0); lia. }
  assert (Hf : 0 <= filledLength width iteration total <= width).
  { unfold filledLength. split.
    - apply Z.div_pos; nia.
    - apply Z.div_le_upper_bound; nia. }
  split; [exact Hw|]. split.
  - unfold bar, times.
    rewrite length_app, !repeat_text_length, Hfill.
    change (length dash) with 1%nat. lia.
  - unfold bar, filledLength.
    rewrite Z.div_mul by lia. rewrite Z.sub_diag.
    change (times dash 0) with (@nil N). apply app_nil_r.
Qed.

(** The fold of lines 176-179, from any starting value. *)
Lemma longest_from names : forall start,
  start <= fold_left (fun longest name =>
                        if Z.of_nat (String.length name) >? longest
                        then Z.of_nat (String.length name) else longest)
                     names start
  /\ forall name, name ∈ names ->
       Z.of_nat (String.length name)
       <= fold_left (fun longest name =>
                       if Z.of_nat (String.length name) >? longest
                       then Z.of_nat (String.length name) else longest)
                    names start.
Proof.
  induction names as [|n names IH]; intros start; simpl.
  - split; [lia|]. intros name Hin. inversion Hin.
  - destruct (IH (if Z.of_nat (String.length n) >? start
                  then Z.of_nat (String.length n) else start)) as [Hs Hall].
    destruct (Z.gtb_spec (Z.of_nat (String.length n)) start) as [Hgt|Hle].
    + split; [lia|]. intros name Hin.
      apply elem_of_cons in Hin as [->|Hin]; [lia|apply Hall, Hin].
    + split; [lia|]. intros name Hin.
      apply elem_of_cons in Hin as [->|Hin]; [lia|apply Hall, Hin].
Qed.

(** X25.  [longest_name] is at least the length of every noted archive
    name, so the name column of the listing and of the progress line,
    padded to that width, never cuts a name short. *)
Theorem longest_name_bounds names name :
  name ∈ names -> Z.of_nat (String.length name) <= longest_name names.
Proof.
  intros Hin. unfold longest_name.
  destruct (longest_from names 0) as [_ H]. apply H. exact Hin.
Qed.

End progress.

(* ===================================================================== *)
(** ** Witnesses of the further properties                                *)
(* ===================================================================== *)

Lemma zoom_name_taken_by_file_witness :
  place_tile (lib := RawCodec.raw) (Sample.tile_of 2 1 0 Sample.solid)
             (Sample.in_output Sample.blocked_tree)
  = (Raise NotADirectoryError, Sample.in_output Sample.blocked_tree).
Proof.
  apply (@zoom_name_taken_by_file RawCodec.raw
           (Sample.tile_of 2 1 0 Sample.solid)
           (Sample.in_output Sample.blocked_tree) []).
  reflexivity.
Defined.

Lemma tile_loop_restores_cwd_witness :
  cwd (tile_loop (lib := RawCodec.raw) 2 0
         [Sample.tile_of 2 1 0 Sample.solid; Sample.tile_of 2 1 1 Sample.half]
         (Sample.in_output Sample.fresh_tree)).2
  = Sample.out_dir.
Proof.
  apply (@tile_loop_restores_cwd RawCodec.raw 2
           [Sample.tile_of 2 1 0 Sample.solid; Sample.tile_of 2 1 1 Sample.half]
           0 (Sample.in_output Sample.fresh_tree)).
  vm_compute. reflexivity.
Defined.

Lemma export_file_leaves_in_parent_witness :
  let env := Sample.one_archive "a.mbtiles"
               (Sample.png_db [Sample.tile_of 2 1 0 Sample.solid]) in
  cwd (export_file (lib := RawCodec.raw) env "a.mbtiles" Sample.start).2
  = Sample.home.
Proof.
  intros env.
  apply (@export_file_leaves_in_parent RawCodec.raw env "a.mbtiles"%string
           Sample.start).
  vm_compute. reflexivity.
Defined.

Lemma main_never_removes_witness :
  never_removes
    (main (lib := RawCodec.raw)
       (Sample.one_archive "a.mbtiles"
          (Sample.png_db [Sample.tile_of 2 1 0 Sample.solid]))).
Proof.
  apply (@main_never_removes RawCodec.raw). reflexivity.
Defined.

Lemma validate_listing_aligned_witness :
  let env := Sample.one_archive "a.mbtiles"
               (Sample.png_db [Sample.tile_of 2 1 0 Sample.solid]) in
  length (parse_message (validate env Sample.start).2)
  = length (names_to_parse (validate env Sample.start).2).
Proof.
  intros env.
  apply (validate_listing_aligned env Sample.start).
  - reflexivity.
  - vm_compute. reflexivity.
Defined.

Lemma validate_notes_matching_files_witness :
  let env := Sample.one_archive "a.mbtiles"
               (Sample.png_db [Sample.tile_of 2 1 0 Sample.solid]) in
  names_to_parse (validate env Sample.start).2 = ["a.mbtiles"%string].
Proof.
  intros env.
  destruct (validate_notes_matching_files env Sample.start
              (validate env Sample.start).2) as [Hn _].
  - vm_compute. reflexivity.
  - rewrite Hn. vm_compute. reflexivity.
Defined.

Lemma validate_raises_only_TypeError_witness :
  let env := Sample.one_archive "a.mbtiles"
               (mkDatabase Sample.bare_meta
                           (Some [Sample.tile_of 1 0 0 Sample.solid])) in
  TypeError = TypeError
  /\ length (names_to_parse (validate env Sample.start).2)
     = S (length (parse_message (validate env Sample.start).2)).
Proof.
  intros env.
  apply (validate_raises_only_TypeError env Sample.start TypeError
           (validate env Sample.start).2).
  - reflexivity.
  - vm_compute. reflexivity.
Defined.

Lemma empty_format_value_is_reported_witness :
  let db := mkDatabase (Some [("format"%string, SText EmptyString)])
                       (Some [Sample.tile_of 1 0 0 Sample.solid]) in
  exists s', validate_file (Sample.one_archive "a.mbtiles" db) "a.mbtiles"
                           Sample.start = (Ok tt, s')
    /\ parse_message s' = [MissingFormatMetadata]
    /\ files_exported s' = [].
Proof.
  intros db.
  apply (empty_format_value_is_reported (Sample.one_archive "a.mbtiles" db)
           "a.mbtiles"%string Sample.start db (SText EmptyString));
    reflexivity.
Defined.

Lemma select_rows_inverted_range_witness :
  select_rows 5 2 [Sample.tile_of 1 0 0 Sample.solid;
                   Sample.tile_of 3 0 0 Sample.solid;
                   Sample.tile_of 6 0 0 Sample.solid] = [].
Proof.
  apply select_rows_inverted_range; lia.
Defined.

Lemma tile_path_determines_coordinates_witness :
  coordinates (Sample.tile_of 2 1 0 Sample.solid)
  = coordinates (Sample.tile_of 2 1 0 Sample.half).
Proof.
  apply (tile_path_determines_coordinates
           (Sample.in_output Sample.fresh_tree) _ _ ".png"%string).
  reflexivity.
Defined.

Lemma delete_all_in_folder_loop_empties_witness :
  delete_all_in_folder_loop Sample.out_dir
    (Sample.in_output (Sample.tree_with Sample.solid))
  = (Ok tt, Sample.in_output Sample.fresh_tree).
Proof.
  destruct (delete_all_in_folder_loop_empties Sample.out_dir
              (Sample.in_output (Sample.tree_with Sample.solid)))
    as [Hloop _].
  - apply tree_belowb_sound. vm_compute. reflexivity.
  - rewrite Hloop. vm_compute. reflexivity.
Defined.

Lemma declined_clean_exits_witness :
  let env := Sample.archive_env (Sample.clean_options false) "n" "a.mbtiles"
               (Sample.png_db [Sample.tile_of 2 1 0 Sample.solid]) in
  let s0 := initial_state Sample.home (Sample.tree_with Sample.solid) in
  (main (lib := RawCodec.raw) env s0).1 = Raise (SystemExit 1)
  /\ nodes (main (lib := RawCodec.raw) env s0).2 = nodes s0.
Proof.
  intros env s0.
  destruct (@declined_clean_exits RawCodec.raw env s0 (validate env s0).2
              (24, 80)) as (Hmain & Hn & _);
    [vm_compute; reflexivity | reflexivity | vm_compute; discriminate
    | reflexivity | reflexivity | reflexivity | reflexivity | ].
  rewrite Hmain. split; [reflexivity|exact Hn].
Defined.

Lemma confirmed_clean_empties_output_witness :
  let env := Sample.archive_env (Sample.clean_options true) EmptyString
               "a.mbtiles"
               (Sample.png_db [Sample.tile_of 2 1 0 Sample.solid]) in
  let s0 := initial_state Sample.home (Sample.tree_with Sample.solid) in
  exists s', prepare env s0 = (Ok tt, s')
    /\ nodes s' !! ["home"; "tiles"; "2"; "1"; "3.png"]%string = None.
Proof.
  intros env s0.
  destruct (confirmed_clean_empties_output env s0 (validate env s0).2 (24, 80))
    as (s' & Hprep & _ & Hgone & _);
    [vm_compute; reflexivity | reflexivity | vm_compute; discriminate
    | reflexivity | reflexivity | reflexivity | ].
  exists s'. split; [exact Hprep|].
  apply Hgone; [|discriminate].
  exists ["2"; "1"; "3.png"]%string. reflexivity.
Defined.

Lemma no_export_no_output_witness :
  let env := Sample.one_archive "a.mbtiles"
               (mkDatabase (Some [("format"%string, SText "geojson")])
                           (Some [Sample.tile_of 1 0 0 Sample.solid])) in
  (main (lib := RawCodec.raw) env Sample.start).1 = Raise (SystemExit 1)
  /\ nodes (main (lib := RawCodec.raw) env Sample.start).2
     = nodes Sample.start.
Proof.
  intros env.
  destruct (@no_export_no_output RawCodec.raw env Sample.start
              (validate env Sample.start).2 (24, 80)) as (Hmain & Hn & _);
    [vm_compute; reflexivity | reflexivity | reflexivity | ].
  rewrite Hmain. split; [reflexivity|exact Hn].
Defined.

Lemma empty_archive_raises_witness :
  exists s',
    export_file (lib := RawCodec.raw)
      (Sample.one_archive "a.mbtiles" (Sample.png_db [])) "a.mbtiles"
      Sample.start = (Raise ZeroDivisionError, s')
    /\ nodes s' = nodes Sample.start /\ cwd s' = cwd Sample.start.
Proof.
  apply (@empty_archive_raises RawCodec.raw
           (Sample.one_archive "a.mbtiles" (Sample.png_db []))
           "a.mbtiles"%string Sample.start (Sample.png_db [])
           [("name"%string, SText "sample"); ("format"%string, SText "png")]);
    reflexivity.
Defined.

Lemma tile_loop_expands_fresh_witness :
  let rows := [Sample.tile_of 2 1 0 Sample.solid;
               Sample.tile_of 2 1 1 Sample.half;
               Sample.tile_of 3 0 0 Sample.clear] in
  exists s',
    tile_loop (lib := RawCodec.raw) 3 0 rows
              (Sample.in_output Sample.fresh_tree) = (Ok tt, s')
    /\ nodes s' !! ["home"; "tiles"; "2"; "1"; "2.png"]%string
       = Some (File (tile_data (Sample.tile_of 2 1 1 Sample.half))).
Proof.
  intros rows.
  destruct (@tile_loop_expands_fresh RawCodec.raw 3 rows 0
              (Sample.in_output Sample.fresh_tree) ".png"%string)
    as (s' & Hloop & _ & _ & Hfiles & _).
  - reflexivity.
  - discriminate.
  - apply (bool_decide_unpack _). vm_compute. exact I.
  - intros row Hin. apply empty_directory_place_free.
    intros p [k Hk] Hne. subst p. unfold Sample.in_output, Sample.fresh_tree.
    cbn [cwd nodes]. cbn [cwd] in Hne.
    rewrite lookup_insert_ne by exact (not_eq_sym Hne).
    rewrite lookup_insert_ne.
    + apply lookup_empty.
    + unfold Sample.home, Sample.out_dir. discriminate.
  - exists s'. split; [exact Hloop|].
    apply (Hfiles (Sample.tile_of 2 1 1 Sample.half)).
    right. left.
Defined.

Lemma opaque_tile_overwrites_witness :
  paste [[Sample.half]] [[Sample.solid]] = [[Sample.solid]]
  /\ place_tile (lib := RawCodec.raw) (Sample.tile_of 2 1 0 Sample.solid)
                (Sample.in_output (Sample.tree_with Sample.half))
     = (Ok tt,
        tile_written (Sample.in_output (Sample.tree_with Sample.half))
                     (Sample.tile_of 2 1 0 Sample.solid) ".png"
                     (RawCodec.encode [[Sample.solid]])).
Proof.
  apply (@opaque_tile_overwrites RawCodec.raw
           (Sample.in_output (Sample.tree_with Sample.half))
           (Sample.tile_of 2 1 0 Sample.solid) ".png"%string
           (RawCodec.encode [[Sample.half]])
           [[Sample.half]] [[Sample.solid]]).
  - reflexivity.
  - split; intros b; vm_compute; discriminate.
  - reflexivity.
  - reflexivity.
  - reflexivity.
  - repeat constructor.
  - repeat constructor.
Defined.

Lemma bar_has_loading_length_witness :
  length (bar full_block (loading_length 80 9) 3 10) = 18%nat.
Proof.
  destruct (bar_has_loading_length full_block 80 9 3 10) as (_ & Hlen & _);
    [reflexivity|lia|lia|].
  rewrite Hlen. reflexivity.
Defined.

Lemma longest_name_bounds_witness :
  Z.of_nat (String.length "a.mbtiles")
  <= longest_name ["a.mbtiles"; "world.mbtiles"]%string.
Proof.
  apply longest_name_bounds. left.
Defined.

Lemma export_into_empty_directory_witness :
  let rows := [Sample.tile_of 2 1 0 Sample.solid;
               Sample.tile_of 2 1 1 Sample.half] in
  let env := Sample.one_archive "a.mbtiles" (Sample.png_db rows) in
  exists s',
    export_file (lib := RawCodec.raw) env "a.mbtiles" Sample.start = (Ok tt, s')
    /\ cwd s' = Sample.home
    /\ nodes s' !! ["home"; "tiles"; "2"; "1"; "3.png"]%string
       = Some (File (tile_data (Sample.tile_of 2 1 0 Sample.solid))).
Proof.
  intros rows env.
  destruct (@export_into_empty_directory RawCodec.raw env "a.mbtiles"%string
              Sample.start (Sample.png_db rows) (SText "png") ".png"%string
              rows)
    as (s' & Hrun & Hcwd & Hfiles & _).
  - reflexivity.
  - reflexivity.
  - left. split; reflexivity.
  - reflexivity.
  - discriminate.
  - apply (bool_decide_unpack _). vm_compute. exact I.
  - reflexivity.
  - intros p [k Hk] Hne. subst p.
    change (nodes Sample.start) with Sample.fresh_tree.
    unfold Sample.fresh_tree.
    rewrite lookup_insert_ne by exact (not_eq_sym Hne).
    rewrite lookup_insert_ne.
    + apply lookup_empty.
    + intros E. vm_compute in E. discriminate.
  - exists s'. split; [exact Hrun|]. split; [exact Hcwd|].
    apply (Hfiles (Sample.tile_of 2 1 0 Sample.solid)). left.
Defined.

Lemma excluded_archive_does_not_stop_validation_witness :
  let db := mkDatabase (Some [("format"%string, SText "geojson")])
                       (Some [Sample.tile_of 1 0 0 Sample.solid]) in
  exists d s',
    validate_file (Sample.one_archive "a.mbtiles" db) "a.mbtiles" Sample.start
    = (Ok tt, s')
    /\ parse_message s' = [d] /\ files_exported s' = []
    /\ validate (Sample.one_archive "a.mbtiles" db) Sample.start
       = for_each ["b.txt"%string]
                  (validate_file (Sample.one_archive "a.mbtiles" db)) s'.
Proof.
  intros db.
  apply (excluded_archive_does_not_stop_validation
           (Sample.one_archive "a.mbtiles" db) "a.mbtiles"%string
           ["b.txt"%string] Sample.start db).
  - reflexivity.
  - reflexivity.
  - right. exists (SText "geojson"). split; reflexivity.
Defined.
